(** * mod_sorter.py: the archive sorting loop, embedded and verified

    The development follows [src/mod_sorter.py].  A [string] holds the
    UTF-8 bytes of a Python [str]; paths are the strings that pathlib hands
    to the operating system, the file system is a finite map from paths to
    contents, and the script's statements run in a state-and-exception
    monad whose state survives a raised exception, as the effects of a
    Python program survive one.  The pauses of [input(...)] have no effect
    on the files or on the output and are left out. *)

From Stdlib Require Import String Ascii List Bool Arith Lia.
From stdpp Require Import gmap strings list fin_maps.

Open Scope string_scope.
Open Scope list_scope.

(** ** Strings: [str.lower], [str.endswith], [os.path.basename] *)

(** [str.lower] on an ASCII character. *)
Definition lower_ascii (c : ascii) : ascii :=
  let n := nat_of_ascii c in
  if ((65 <=? n)%nat && (n <=? 90)%nat) then ascii_of_nat (n + 32) else c.

(** The three bytes of U+212A KELVIN SIGN. *)
Definition is_kelvin (c1 c2 c3 : ascii) : bool :=
  Ascii.eqb c1 "226" && Ascii.eqb c2 "132" && Ascii.eqb c3 "170".

(** [str.lower] on UTF-8 text, exact on every code point whose lower case
    ends in an ASCII character: the letters A-Z, and U+212A KELVIN SIGN,
    which lowers to the letter k.  The lower case of any other code point
    ends in a byte outside ASCII, as the code point itself does; those are
    kept as they are, which leaves the outcome of [endswith] with an ASCII
    suffix, the one use the script makes of [lower], as Python has it. *)
Fixpoint lower (s : string) : string :=
  match s with
  | EmptyString => EmptyString
  | String c1 s1 =>
      match s1 with
      | String c2 (String c3 s3) =>
          if is_kelvin c1 c2 c3 then String "k" (lower s3)
          else String (lower_ascii c1) (lower s1)
      | _ => String (lower_ascii c1) (lower s1)
      end
  end.

(** [s] starts with the bytes of U+212A. *)
Definition kelvin_head (s : string) : bool :=
  match s with
  | String c1 (String c2 (String c3 _)) => is_kelvin c1 c2 c3
  | _ => false
  end.

(** [s.endswith(suf)]: some tail of [s] is [suf]. *)
Fixpoint endswith (s suf : string) : bool :=
  if String.eqb s suf then true
  else match s with
       | EmptyString => false
       | String _ s' => endswith s' suf
       end.

Definition is_sep (c : ascii) : bool := Ascii.eqb c "/".

Fixpoint has_sep (s : string) : bool :=
  match s with
  | EmptyString => false
  | String c s' => is_sep c || has_sep s'
  end.

(** [os.path.basename(p)] of posixpath, [p[p.rfind('/') + 1:]]: what follows
    the last separator, the whole of [p] when it has none. *)
Fixpoint basename (p : string) : string :=
  match p with
  | EmptyString => EmptyString
  | String c p' =>
      if has_sep p' then basename p'
      else if is_sep c then p' else p
  end.

(** ** Paths: pathlib on POSIX

    A [Path] is a root and a list of names; the script only ever gives a
    path to the system as [str(path)], which [render] writes.  A path is
    kept here as that string and parsed again, which gives the same root
    and names back ([path_names_render], [path_root_render]). *)

(** [s.split('/')] *)
Fixpoint split_sep (s : string) : list string :=
  match s with
  | EmptyString => [EmptyString]
  | String c s' =>
      if is_sep c then EmptyString :: split_sep s'
      else match split_sep s' with
           | x :: xs => String c x :: xs
           | [] => [String c EmptyString]
           end
  end.

(** The components pathlib keeps: empty ones and single dots are dropped,
    a double dot stays. *)
Definition is_name (x : string) : bool :=
  negb (String.eqb x "") && negb (String.eqb x ".").

Definition path_names (s : string) : list string :=
  List.filter is_name (split_sep s).

(** A name is a path component that pathlib keeps: not empty, not a single
    dot, free of separators. *)
Definition valid_name (x : string) : Prop := is_name x = true /\ has_sep x = false.

Definition valid_root (r : string) : Prop := r = "" \/ r = "/" \/ r = "//".

(** The root of a path: exactly two leading separators are kept, one, or
    three and more, are a single one. *)
Definition path_root (s : string) : string :=
  match s with
  | String c1 s1 =>
      if is_sep c1 then
        match s1 with
        | String c2 s2 =>
            if is_sep c2 then
              match s2 with
              | String c3 _ => if is_sep c3 then "/" else "//"
              | EmptyString => "//"
              end
            else "/"
        | EmptyString => "/"
        end
      else ""
  | EmptyString => ""
  end.

Fixpoint join_names (names : list string) : string :=
  match names with
  | [] => ""
  | x :: rest =>
      match rest with
      | [] => x
      | _ => x +:+ "/" +:+ join_names rest
      end
  end.

(** [str(path)]: the path without root and names is the current folder. *)
Definition render (root : string) (names : list string) : string :=
  match root, names with
  | EmptyString, [] => "."
  | _, _ => root +:+ join_names names
  end.

(** [str(Path(s))] *)
Definition normpath (s : string) : string := render (path_root s) (path_names s).

(** [str(Path(a) / b)]: the names of [b] are added to those of [a]; an
    empty [b] adds nothing, and a [b] with a root replaces [a]. *)
Definition joinpath (a b : string) : string :=
  match path_root b with
  | EmptyString => render (path_root a) (path_names a ++ path_names b)
  | root => render root (path_names b)
  end.

(** The non-empty prefixes of a list, shortest first. *)
Fixpoint heads {A} (l : list A) : list (list A) :=
  match l with
  | [] => []
  | x :: l' => [x] :: map (cons x) (heads l')
  end.

(** A path and its [parents] that have a name, the path first: the
    directories that must exist for the path to be one.  The root and the
    current folder, which have no name, always exist. *)
Definition lineage (p : string) : list string :=
  map (render (path_root p)) (reverse (heads (path_names p))).

Definition is_anchor (p : string) : bool :=
  match path_names p with [] => true | _ => false end.

(** [os.path.join(a, b)] of posixpath, which [shutil.move] uses. *)
Definition os_path_join (a b : string) : string :=
  if String.eqb (path_root b) "" then
    if String.eqb a "" || endswith a "/" then a +:+ b else a +:+ "/" +:+ b
  else b.

(** ** Data *)

(** A [zipfile.ZipInfo] together with the stored payload.  [is_dir] is the
    value of the library's [is_dir()] method; [crc_ok] tells whether reading
    the payload passes the archive's integrity check. *)
Record ZipInfo := mkZipInfo {
  filename : string;
  is_dir : bool;
  payload : string;
  crc_ok : bool
}.

(** What a path of the file system holds: plain bytes, or a file that
    [zipfile.ZipFile] can open, given by its member list. *)
Inductive content :=
| Raw (bytes : string)
| ZipArchive (members : list ZipInfo).

(** A JSON object as the script reads it: an absent key is [None] and is
    replaced by the default of the [config.get] call that reads it.  [rules]
    is the insertion-ordered dict, as the list of its items. *)
Record config := mkConfig {
  sims_mods_path_override : option string;
  source_zips_folder : option string;
  unsorted_folder_name : option string;
  rules : option (list (string * string))
}.

(** What [json.load] returns at line 21: an object, or a document of
    another kind (a list, a string, a number, [true], [false], [null]),
    which has no [get]. *)
Inductive document :=
| Object (cfg : config)
| NotAnObject.

Coercion Object : config >-> document.

(** The exceptions the script can meet. *)
Inductive exn :=
| BadZipFile
| ReError (pattern : string)
| OSError (path : string)
| KeyError (name : string)
| JSONDecodeError
| UnicodeDecodeError
| AttributeError (name : string)
| SystemExit.

(** [except Exception] catches everything but [SystemExit]. *)
Definition is_Exception (e : exn) : bool :=
  match e with SystemExit => false | _ => true end.

(** The lines the script prints, one constructor per [print] call; the
    two rules of "=" around the summary share [MsgRule]. *)
Inductive msg :=
| MsgStarting
| MsgTarget (path : string)
| MsgConfigMissing
| MsgConfigInvalid
| MsgNoSimsDir (path : string)
| MsgCheckConfig
| MsgCreatedSource (path : string)
| MsgPutZips
| MsgNoZips (path : string)
| MsgFound (n : nat)
| MsgProcessing (name : string)
| MsgSkip (folder base : string)
| MsgExtract (base folder : string)
| MsgFinished (name : string)
| MsgCorrupt (name : string)
| MsgUnexpected (name : string) (e : exn)
| MsgRule
| MsgDone (moved unsorted : nat) (unsorted_name : string).

(** How the operating system can refuse an operation on a path: outright
    ([Denied]: the file is not created), or while the data is written
    ([DiskFull n]: the file is created and keeps the first [n] bytes). *)
Inductive io_fault :=
| Denied
| DiskFull (written : nat).

(** The world the script runs in, with the two counters of [process_zips]. *)
Record state := mkState {
  files : gmap string content;
  dirs : gset string;
  faults : gmap string io_fault;
  stdout : list msg;
  count_moved : nat;
  count_unsorted : nat
}.

Definition set_files (f : gmap string content) (s : state) : state :=
  mkState f (dirs s) (faults s) (stdout s) (count_moved s) (count_unsorted s).
Definition set_dirs (d : gset string) (s : state) : state :=
  mkState (files s) d (faults s) (stdout s) (count_moved s) (count_unsorted s).
Definition set_stdout (o : list msg) (s : state) : state :=
  mkState (files s) (dirs s) (faults s) o (count_moved s) (count_unsorted s).
Definition set_counts (m u : nat) (s : state) : state :=
  mkState (files s) (dirs s) (faults s) (stdout s) m u.

(** ** The libraries the script calls

    [re.search(p, s, re.IGNORECASE)] compiles [p] and searches [s]:
    [re_compile] is [None] where Python raises [re.error], and depends on the
    pattern alone.

    [json.load] reads the bytes of a file.  [json_loads] is the object they
    decode to, when they decode to an object whose values have the types
    the script expects of them.  When they do not, [json_fails] is the
    exception that [json.load] raises: [JSONDecodeError] for text that is
    not JSON, [UnicodeDecodeError] for bytes that are not text in the
    encoding of the locale; it is [None] for the text of a document that is
    not an object, which [json.load] returns.  The bytes of an archive are
    never a JSON document, and [json_of_archive] is the one of the two
    exceptions that they raise.  An object with a value of another type
    than the script expects is outside the model. *)
Class PyLib := {
  regex : Type;
  re_compile : string -> option regex;
  regex_search : regex -> string -> bool;
  json_loads : string -> option config;
  json_fails : string -> option exn;
  json_of_archive : list ZipInfo -> exn
}.

(** ** The monad of statements *)

Definition M (A : Type) : Type := state -> (exn + A) * state.

Definition ret {A} (a : A) : M A := fun s => (inr a, s).
Definition raise {A} (e : exn) : M A := fun s => (inl e, s).
Definition bind {A B} (m : M A) (k : A -> M B) : M B :=
  fun s => match m s with
           | (inl e, s') => (inl e, s')
           | (inr a, s') => k a s'
           end.
Definition try_except {A} (m : M A) (h : exn -> M A) : M A :=
  fun s => match m s with
           | (inl e, s') => h e s'
           | r => r
           end.

Declare Scope py_scope.
Delimit Scope py_scope with py.
Notation "x <- m ;; k" := (bind m (fun x => k))
  (at level 100, m at next level, right associativity) : py_scope.
Notation "m ;; k" := (bind m (fun _ => k))
  (at level 100, right associativity) : py_scope.
Open Scope py_scope.

Definition get_state : M state := fun s => (inr s, s).
Definition modify (f : state -> state) : M unit := fun s => (inr tt, f s).

(** [for x in l: body x] *)
Fixpoint for_each {A} (l : list A) (body : A -> M unit) : M unit :=
  match l with
  | [] => ret tt
  | x :: l' => body x ;; for_each l' body
  end.

(** ** Primitives: console, paths, files *)

Definition printed (m : msg) (s : state) : state :=
  set_stdout (stdout s ++ [m]) s.

Definition print (m : msg) : M unit := modify (printed m).

(** [p] is a directory: one that the state records, or the root or the
    current folder. *)
Definition is_directory (p : string) (s : state) : bool :=
  bool_decide (p ∈ dirs s) || is_anchor p.

Definition exists_in (p : string) (s : state) : bool :=
  bool_decide (is_Some (files s !! p)) || is_directory p s.

(** [Path.exists()] *)
Definition path_exists (p : string) : M bool :=
  s <- get_state ;; ret (exists_in p s).

(** [os.mkdir] along a lineage, as [Path.mkdir(parents=True, exist_ok=True)]
    goes about it: nothing to do on a directory; an error on a regular
    file; else the parent is seen to first, by the same steps, and then the
    directory is made, unless the system refuses it. *)
Fixpoint makedirs (chain : list string) : M unit :=
  match chain with
  | [] => ret tt
  | p :: up =>
      s <- get_state ;;
      if bool_decide (p ∈ dirs s) then ret tt
      else if bool_decide (is_Some (files s !! p)) then raise (OSError p)
      else
        makedirs up ;;
        s' <- get_state ;;
        if bool_decide (is_Some (faults s' !! p)) then raise (OSError p)
        else modify (set_dirs ({[p]} ∪ dirs s'))
  end.

(** [Path.mkdir(parents=True, exist_ok=True)] of line 95, and
    [Path.mkdir(parents=True)] of line 51, which is only reached for a path
    that does not exist. *)
Definition mkdir (p : string) : M unit := makedirs (lineage p).

(** [Path.mkdir(exist_ok=True)] of line 116: the parent is not made. *)
Definition mkdir_exist_ok (p : string) : M unit :=
  s <- get_state ;;
  if is_directory p s then ret tt
  else if bool_decide (is_Some (files s !! p)) || bool_decide (is_Some (faults s !! p))
       then raise (OSError p)
       else
         let parent_is_there :=
           match lineage p with
           | _ :: parent :: _ => bool_decide (parent ∈ dirs s)
           | _ => true
           end in
         if parent_is_there then modify (set_dirs ({[p]} ∪ dirs s))
         else raise (OSError p).

(** [open(p, 'wb')]: creates or truncates the file. *)
Definition open_wb (p : string) : M unit :=
  s <- get_state ;;
  if is_directory p s then raise (OSError p)
  else match faults s !! p with
       | Some Denied => raise (OSError p)
       | _ => modify (set_files (<[p := Raw ""]> (files s)))
       end.

Fixpoint take_bytes (n : nat) (s : string) : string :=
  match n, s with
  | S n', String c s' => String c (take_bytes n' s')
  | _, _ => EmptyString
  end.

(** [f.write(data)] and the close at the end of the [with] block. *)
Definition file_write (p : string) (data : string) : M unit :=
  s <- get_state ;;
  match faults s !! p with
  | Some (DiskFull n) =>
      modify (set_files (<[p := Raw (take_bytes n data)]> (files s))) ;;
      raise (OSError p)
  | _ => modify (set_files (<[p := Raw data]> (files s)))
  end.

(** [zipfile.ZipFile(p, 'r')] *)
Definition zip_open (p : string) : M (list ZipInfo) :=
  s <- get_state ;;
  match files s !! p with
  | Some (ZipArchive ms) => ret ms
  | Some (Raw _) => raise BadZipFile
  | None => raise (OSError p)
  end.

(** [ZipFile.getinfo(name)]: the table of names keeps, for a name stored
    more than once, the entry read last. *)
Fixpoint getinfo (ms : list ZipInfo) (name : string) : option ZipInfo :=
  match ms with
  | [] => None
  | m :: ms' =>
      match getinfo ms' name with
      | Some m' => Some m'
      | None => if String.eqb (filename m) name then Some m else None
      end
  end.

(** [zip_ref.read(name)]; reading changes nothing in the world. *)
Definition read_result (ms : list ZipInfo) (name : string) : exn + string :=
  match getinfo ms name with
  | None => inl (KeyError name)
  | Some m => if crc_ok m then inr (payload m) else inl BadZipFile
  end.

Definition zip_read (ms : list ZipInfo) (name : string) : M string :=
  fun s => (read_result ms name, s).

(** [shutil.move(src, dst)] of a file: into [dst] when that is a directory
    (an error if the name is taken there), else a rename that replaces
    [dst].  [src] is the string of a path of pathlib, which has no separator
    at its end. *)
Definition move (src dst : string) : M unit :=
  s <- get_state ;;
  match files s !! src with
  | None => raise (OSError src)
  | Some c =>
      if is_directory dst s then
        let real_dst := os_path_join dst (basename src) in
        if exists_in real_dst s || bool_decide (is_Some (faults s !! real_dst))
        then raise (OSError real_dst)
        else modify (set_files (<[real_dst := c]> (delete src (files s))))
      else if bool_decide (is_Some (faults s !! dst)) then raise (OSError dst)
      else modify (set_files (<[dst := c]> (delete src (files s))))
  end.

(** ** The script *)

Definition CONFIG_FILE : string := "config.json".

Section Script.
Context `{PyLib}.

(** [re.search(pattern_str, base_filename, re.IGNORECASE)] as a truth value. *)
Definition re_search (pattern_str base_filename : string) : M bool :=
  match re_compile pattern_str with
  | None => raise (ReError pattern_str)
  | Some r => ret (regex_search r base_filename)
  end.

(** [json.load(f)] of line 21 on what the file holds. *)
Definition json_load (c : content) : M document :=
  match c with
  | Raw text =>
      match json_loads text with
      | Some cfg => ret (Object cfg)
      | None =>
          match json_fails text with
          | Some e => raise e
          | None => ret NotAnObject
          end
      end
  | ZipArchive ms => raise (json_of_archive ms)
  end.

(** Lines 11-25.  Of what [json.load] raises, line 22 catches
    [JSONDecodeError] alone. *)
Definition load_config : M document :=
  ex <- path_exists CONFIG_FILE ;;
  if negb ex then print MsgConfigMissing ;; raise SystemExit
  else
    s <- get_state ;;
    match files s !! CONFIG_FILE with
    | None => raise (OSError CONFIG_FILE)
    | Some c =>
        try_except (json_load c)
          (fun e => match e with
                    | JSONDecodeError => print MsgConfigInvalid ;; raise SystemExit
                    | _ => raise e
                    end)
    end.

(** [config.get(key, ...)], which a document that is not an object does
    not have. *)
Definition the_object (doc : document) : M config :=
  match doc with
  | Object cfg => ret cfg
  | NotAnObject => raise (AttributeError "get")
  end.

(** Lines 27-41; [home] is [Path.home()]. *)
Definition get_sims_mods_path (home : string) (doc : document) : M string :=
  cfg <- the_object doc ;;
  let override := default "" (sims_mods_path_override cfg) in
  let path :=
    if negb (String.eqb override "") then normpath override
    else joinpath (joinpath (joinpath (joinpath home "Documents")
                     "Electronic Arts") "The Sims 4") "Mods" in
  ex <- path_exists path ;;
  if negb ex then
    print (MsgNoSimsDir path) ;; print MsgCheckConfig ;; raise SystemExit
  else ret path.

(** Lines 81-90: the search through [rules.items()], leaving the loop at the
    first hit.  [target_folder_name] and [found_match] are the two locals. *)
Fixpoint search_rules (items : list (string * string)) (base_filename : string)
    (target_folder_name : string) (found_match : bool) : M (string * bool) :=
  match items with
  | [] => ret (target_folder_name, found_match)
  | (folder_key, pattern_str) :: items' =>
      hit <- re_search pattern_str base_filename ;;
      if hit then ret (folder_key, true)
      else search_rules items' base_filename target_folder_name found_match
  end.

Definition classify (cfg : config) (base_filename : string) : M (string * bool) :=
  let unsorted_name := default "_unsorted" (unsorted_folder_name cfg) in
  search_rules (default [] (rules cfg)) base_filename unsorted_name false.

(** The value of that search.  The loop reads no state, so it can be taken
    in any; see [classify_pure]. *)
Definition empty_state : state := mkState ∅ ∅ ∅ [] 0 0.

Definition classification (cfg : config) (base_filename : string)
    : exn + (string * bool) :=
  fst (classify cfg base_filename empty_state).

(** Line 73: the condition of the first [continue], and the members that
    get past it. *)
Definition ignored (file_info : ZipInfo) : bool :=
  negb (endswith (lower (filename file_info)) ".package") || is_dir file_info.

Definition eligible (file_info : ZipInfo) : bool := negb (ignored file_info).

(** Lines 109-112. *)
Definition counted (found_match : bool) (s : state) : state :=
  if found_match then set_counts (count_moved s + 1) (count_unsorted s) s
  else set_counts (count_moved s) (count_unsorted s + 1) s.

(** Lines 81-112: one member that passed the two [continue]s above. *)
Definition extract_member (cfg : config) (mods_path : string)
    (zip_ref : list ZipInfo) (file_info : ZipInfo) (base_filename : string) : M unit :=
  r <- classify cfg base_filename ;;
  let target_folder_name := fst r in
  let found_match := snd r in
  let dest_dir := joinpath mods_path target_folder_name in
  mkdir dest_dir ;;
  let dest_file_path := joinpath dest_dir base_filename in
  ex <- path_exists dest_file_path ;;
  if ex then print (MsgSkip target_folder_name base_filename)
  else
    print (MsgExtract base_filename target_folder_name) ;;
    open_wb dest_file_path ;;
    data <- zip_read zip_ref (filename file_info) ;;
    file_write dest_file_path data ;;
    modify (counted found_match).

(** Lines 72-112: the body of [for file_info in zip_ref.infolist()]. *)
Definition process_member (cfg : config) (mods_path : string)
    (zip_ref : list ZipInfo) (file_info : ZipInfo) : M unit :=
  if ignored file_info then ret tt
  else
    let base_filename := basename (filename file_info) in
    if String.eqb base_filename "" then ret tt
    else extract_member cfg mods_path zip_ref file_info base_filename.

(** Lines 71-112. *)
Definition scan_members (cfg : config) (mods_path : string)
    (zip_ref : list ZipInfo) (infolist : list ZipInfo) : M unit :=
  for_each infolist (process_member cfg mods_path zip_ref).

(** Line 45: [Path(config.get("source_zips_folder", "./PUT_ZIPS_HERE"))]. *)
Definition source_of (cfg : config) : string :=
  normpath (default "./PUT_ZIPS_HERE" (source_zips_folder cfg)).
Definition processed_dir_of (cfg : config) : string :=
  joinpath (source_of cfg) "processed_archive".

(** Lines 114-118. *)
Definition relocate (cfg : config) (zip_path : string) : M unit :=
  let processed_dir := processed_dir_of cfg in
  mkdir_exist_ok processed_dir ;;
  move zip_path (joinpath processed_dir (basename zip_path)) ;;
  print (MsgFinished (basename zip_path)).

(** Lines 120-123. *)
Definition on_error (zip_path : string) (e : exn) : M unit :=
  match e with
  | BadZipFile => print (MsgCorrupt (basename zip_path))
  | _ => if is_Exception e then print (MsgUnexpected (basename zip_path) e)
         else raise e
  end.

(** Lines 68-123: the body of [for zip_path in zip_files].  [zip_path] is
    the string of a path that [glob] returned, and [basename] of it is the
    [name] of that path. *)
Definition process_archive (cfg : config) (mods_path : string)
    (zip_path : string) : M unit :=
  print (MsgProcessing (basename zip_path)) ;;
  try_except
    (zip_ref <- zip_open zip_path ;;
     scan_members cfg mods_path zip_ref zip_ref ;;
     relocate cfg zip_path)
    (on_error zip_path).

(** Lines 43-128.  [zip_files] is the list that [source_path.glob("*.zip")]
    returns at line 57; its order is the operating system's. *)
Definition process_zips (doc : document) (mods_path : string)
    (zip_files : list string) : M unit :=
  cfg <- the_object doc ;;
  let source_path := source_of cfg in
  let unsorted_name := default "_unsorted" (unsorted_folder_name cfg) in
  ex <- path_exists source_path ;;
  if negb ex then
    mkdir source_path ;;
    print (MsgCreatedSource source_path) ;;
    print MsgPutZips ;;
    raise SystemExit
  else
    match zip_files with
    | [] => print (MsgNoZips source_path)
    | _ =>
        print (MsgFound (length zip_files)) ;;
        modify (set_counts 0 0) ;;
        for_each zip_files (process_archive cfg mods_path) ;;
        print MsgRule ;;
        s <- get_state ;;
        print (MsgDone (count_moved s) (count_unsorted s) unsorted_name) ;;
        print MsgRule
    end.

(** Lines 130-135. *)
Definition main (home : string) (zip_files : list string) : M unit :=
  print MsgStarting ;;
  loaded_config <- load_config ;;
  sims_path <- get_sims_mods_path home loaded_config ;;
  print (MsgTarget sims_path) ;;
  process_zips loaded_config sims_path zip_files.

End Script.

(** ** A concrete library, for running the script on examples

    A fragment of Python's pattern syntax: ordinary characters, [.], [|],
    grouping with parentheses, and one of [*], [+], [?] after an item.
    Within the fragment [compile] is [None] exactly where Python raises
    [re.error]: a parenthesis without its partner, a quantifier with nothing
    before it.  A pattern that uses anything else (classes, escapes, anchors,
    braces, a quantifier after a quantifier) is outside the fragment and is
    refused as well; the examples below stay inside it. *)
Module Fragment.

Inductive rx :=
| RxEmpty
| RxEps
| RxChr (c : ascii)
| RxAny
| RxSeq (r1 r2 : rx)
| RxAlt (r1 r2 : rx)
| RxStar (r : rx).

(** An open group while parsing: the finished branches, the items of the
    current branch (last one first), and whether the last item may still
    take a quantifier. *)
Record frame := mkFrame {
  branches : list rx;
  items : list rx;
  repeatable : bool
}.

Definition empty_frame : frame := mkFrame [] [] false.

Definition seq_of (its : list rx) : rx :=
  fold_left (fun acc r => RxSeq r acc) its RxEps.

Definition close (f : frame) : rx :=
  fold_right RxAlt (seq_of (items f)) (branches f).

Definition push_item (r : rx) (f : frame) : frame :=
  mkFrame (branches f) (r :: items f) true.

Definition new_branch (f : frame) : frame :=
  mkFrame (branches f ++ [seq_of (items f)]) [] false.

Definition quantify (q : ascii) (f : frame) : option frame :=
  match items f, repeatable f with
  | r :: its, true =>
      let r' := if Ascii.eqb q "*" then RxStar r
                else if Ascii.eqb q "+" then RxSeq r (RxStar r)
                else RxAlt RxEps r in
      Some (mkFrame (branches f) (r' :: its) false)
  | _, _ => None
  end.

Definition one_of (c : ascii) (s : string) : bool :=
  existsb (Ascii.eqb c) (list_ascii_of_string s).

Fixpoint parse (p : string) (cur : frame) (stack : list frame) : option rx :=
  match p with
  | EmptyString =>
      match stack with
      | [] => Some (close cur)
      | _ => None
      end
  | String c p' =>
      if Ascii.eqb c "(" then parse p' empty_frame (cur :: stack)
      else if Ascii.eqb c ")" then
        match stack with
        | [] => None
        | outer :: stack' => parse p' (push_item (close cur) outer) stack'
        end
      else if Ascii.eqb c "|" then parse p' (new_branch cur) stack
      else if one_of c "*+?" then
        match quantify c cur with
        | Some cur' => parse p' cur' stack
        | None => None
        end
      else if Ascii.eqb c "." then parse p' (push_item RxAny cur) stack
      else if one_of c "[]{}\^$" then None
      else parse p' (push_item (RxChr c) cur) stack
  end.

Definition compile (p : string) : option rx := parse p empty_frame [].

Fixpoint nullable (r : rx) : bool :=
  match r with
  | RxEmpty | RxChr _ | RxAny => false
  | RxEps | RxStar _ => true
  | RxSeq r1 r2 => nullable r1 && nullable r2
  | RxAlt r1 r2 => nullable r1 || nullable r2
  end.

(** The derivative by one character, ASCII letters compared without case
    (the [IGNORECASE] flag); [.] does not match a newline. *)
Fixpoint deriv (c : ascii) (r : rx) : rx :=
  match r with
  | RxEmpty | RxEps => RxEmpty
  | RxChr a => if Ascii.eqb (lower_ascii a) (lower_ascii c) then RxEps else RxEmpty
  | RxAny => if Ascii.eqb c "010" then RxEmpty else RxEps
  | RxSeq r1 r2 =>
      if nullable r1 then RxAlt (RxSeq (deriv c r1) r2) (deriv c r2)
      else RxSeq (deriv c r1) r2
  | RxAlt r1 r2 => RxAlt (deriv c r1) (deriv c r2)
  | RxStar r1 => RxSeq (deriv c r1) (RxStar r1)
  end.

(** Some prefix of [s] is in the language of [r]. *)
Fixpoint match_prefix (r : rx) (s : string) : bool :=
  nullable r ||
  match s with
  | EmptyString => false
  | String c s' => match_prefix (deriv c r) s'
  end.

(** [search]: a match starting anywhere in [s]. *)
Fixpoint search (r : rx) (s : string) : bool :=
  match_prefix r s ||
  match s with
  | EmptyString => false
  | String _ s' => search r s'
  end.

(** The decoder of [config.json], on the documents of the examples; any
    other text is taken not to be JSON. *)
Definition q (s : string) : string := String "034" (s +:+ String "034" "").

Definition doc_pack : string :=
  "{" +:+ q "unsorted_folder_name" +:+ ": " +:+ q "_unsorted" +:+ ", "
      +:+ q "rules" +:+ ": {" +:+ q "hair" +:+ ": " +:+ q "hair" +:+ ", "
      +:+ q "eyes" +:+ ": " +:+ q "eye" +:+ "}}".
Definition doc_broken : string :=
  "{" +:+ q "rules" +:+ ": {" +:+ q "hair" +:+ ": " +:+ q "hair" +:+ ", "
      +:+ q "broken" +:+ ": " +:+ q "(" +:+ "}}".

Definition documents : list (string * config) :=
  [ (doc_pack,
     mkConfig None None (Some "_unsorted") (Some [("hair", "hair"); ("eyes", "eye")]));
    (doc_broken,
     mkConfig None None None (Some [("hair", "hair"); ("broken", "(")])) ].

Fixpoint decode (table : list (string * config)) (text : string) : option config :=
  match table with
  | [] => None
  | (doc, cfg) :: table' => if String.eqb doc text then Some cfg else decode table' text
  end.

Definition lib : PyLib :=
  {| regex := rx;
     re_compile := compile;
     regex_search := search;
     json_loads := decode documents;
     json_fails := fun _ => Some JSONDecodeError;
     json_of_archive := fun _ => UnicodeDecodeError |}.

End Fragment.


(** ** Vocabulary for the statements *)

Section Outcomes.
Context `{PyLib}.

(** [dest_dir.mkdir(...)] raises in [st]. *)
Definition mkdir_fails (d : string) (st : state) : bool :=
  match fst (mkdir d st) with inl _ => true | inr _ => false end.

(** The state that [dest_dir.mkdir(...)] leaves: [st] with the directories
    it made. *)
Definition with_dir (d : string) (st : state) : state := snd (mkdir d st).

(** The same for [processed_dir.mkdir(exist_ok=True)]. *)
Definition mkdir_exist_ok_fails (d : string) (st : state) : bool :=
  match fst (mkdir_exist_ok d st) with inl _ => true | inr _ => false end.

Definition with_leaf (d : string) (st : state) : state := snd (mkdir_exist_ok d st).

Definition dest_of (mods_path category base : string) : string :=
  joinpath (joinpath mods_path category) base.

(** Every way lines 81-112 can end for one member, with the state each
    leaves behind.  [extract_member_outcome] shows the list is complete. *)
Inductive member_outcome (cfg : config) (mods_path : string)
    (zip_ref : list ZipInfo) (file_info : ZipInfo) (base : string) (st : state)
    : (exn + unit) * state -> Prop :=
| Unclassified e :
    classification cfg base = inl e ->
    member_outcome cfg mods_path zip_ref file_info base st (inl e, st)
| NoDirectory cat found e :
    classification cfg base = inr (cat, found) ->
    fst (mkdir (joinpath mods_path cat) st) = inl e ->
    member_outcome cfg mods_path zip_ref file_info base st
      (inl e, with_dir (joinpath mods_path cat) st)
| Skipped cat found :
    classification cfg base = inr (cat, found) ->
    mkdir_fails (joinpath mods_path cat) st = false ->
    exists_in (dest_of mods_path cat base) (with_dir (joinpath mods_path cat) st) = true ->
    member_outcome cfg mods_path zip_ref file_info base st
      (inr tt, printed (MsgSkip cat base) (with_dir (joinpath mods_path cat) st))
| OpenFailed cat found :
    classification cfg base = inr (cat, found) ->
    mkdir_fails (joinpath mods_path cat) st = false ->
    exists_in (dest_of mods_path cat base) (with_dir (joinpath mods_path cat) st) = false ->
    faults st !! dest_of mods_path cat base = Some Denied ->
    member_outcome cfg mods_path zip_ref file_info base st
      (inl (OSError (dest_of mods_path cat base)),
       printed (MsgExtract base cat) (with_dir (joinpath mods_path cat) st))
| ReadFailed cat found e :
    classification cfg base = inr (cat, found) ->
    mkdir_fails (joinpath mods_path cat) st = false ->
    exists_in (dest_of mods_path cat base) (with_dir (joinpath mods_path cat) st) = false ->
    faults st !! dest_of mods_path cat base <> Some Denied ->
    read_result zip_ref (filename file_info) = inl e ->
    member_outcome cfg mods_path zip_ref file_info base st
      (inl e,
       set_files (<[dest_of mods_path cat base := Raw ""]> (files st))
         (printed (MsgExtract base cat) (with_dir (joinpath mods_path cat) st)))
| WriteFailed cat found n data :
    classification cfg base = inr (cat, found) ->
    mkdir_fails (joinpath mods_path cat) st = false ->
    exists_in (dest_of mods_path cat base) (with_dir (joinpath mods_path cat) st) = false ->
    faults st !! dest_of mods_path cat base = Some (DiskFull n) ->
    read_result zip_ref (filename file_info) = inr data ->
    member_outcome cfg mods_path zip_ref file_info base st
      (inl (OSError (dest_of mods_path cat base)),
       set_files (<[dest_of mods_path cat base := Raw (take_bytes n data)]> (files st))
         (printed (MsgExtract base cat) (with_dir (joinpath mods_path cat) st)))
| Extracted cat found data :
    classification cfg base = inr (cat, found) ->
    mkdir_fails (joinpath mods_path cat) st = false ->
    exists_in (dest_of mods_path cat base) (with_dir (joinpath mods_path cat) st) = false ->
    faults st !! dest_of mods_path cat base = None ->
    read_result zip_ref (filename file_info) = inr data ->
    member_outcome cfg mods_path zip_ref file_info base st
      (inr tt,
       counted found
         (set_files (<[dest_of mods_path cat base := Raw data]> (files st))
            (printed (MsgExtract base cat) (with_dir (joinpath mods_path cat) st)))).

(** [st'] comes after [st] in a run of the member loop: directories and
    files are only added, a file that was there keeps its content, the
    faults of the system stay as they are and the output is continued. *)
Definition extends (st st' : state) : Prop :=
  (dirs st ⊆ dirs st') ∧ (files st ⊆ files st') ∧
  (faults st' = faults st) ∧ (stdout st `prefix_of` stdout st').

(** The destination of an eligible member is in place: its category
    folder is a directory and its destination path exists. *)
Definition settled (cfg : config) (mods_path : string) (file_info : ZipInfo)
    (st : state) : Prop :=
  exists cat found,
    classification cfg (basename (filename file_info)) = inr (cat, found) ∧
    is_directory (joinpath mods_path cat) st = true ∧
    exists_in (dest_of mods_path cat (basename (filename file_info))) st = true.

(** The line that reports a member as already present. *)
Definition skip_line (cfg : config) (file_info : ZipInfo) : msg :=
  let base := basename (filename file_info) in
  match classification cfg base with
  | inr (cat, _) => MsgSkip cat base
  | inl _ => MsgSkip (default "_unsorted" (unsorted_folder_name cfg)) base
  end.

(** The line printed when a member ends as skipped or as extracted. *)
Definition member_event (cfg : config) (file_info : ZipInfo) (ev : msg) : Prop :=
  let base := basename (filename file_info) in
  exists cat found,
    classification cfg base = inr (cat, found) ∧
    (ev = MsgSkip cat base ∨ ev = MsgExtract base cat).

(** The line that handling an error of an archive prints. *)
Definition error_line (zip_path : string) (e : exn) : msg :=
  match e with
  | BadZipFile => MsgCorrupt (basename zip_path)
  | _ => MsgUnexpected (basename zip_path) e
  end.

End Outcomes.

(** ** Example data *)

(** The two rules of the tie-break example. *)
Definition cfg_tie : config :=
  mkConfig None None None (Some [("hair", "hai"); ("accessories", "air")]).

(** The end-to-end scenario: one archive, three tracked members in
    sub-folders, a text file and a directory entry. *)
Definition cfg_pack : config :=
  mkConfig None None (Some "_unsorted") (Some [("hair", "hair"); ("eyes", "eye")]).

Definition pack1 : list ZipInfo :=
  [ mkZipInfo "a/RedHair.package" false "red" true;
    mkZipInfo "b/GreenEye.package" false "green" true;
    mkZipInfo "c/Shoe.package" false "shoe" true;
    mkZipInfo "notes.txt" false "n" true;
    mkZipInfo "folder/" true "" true ].

Definition st_pack : state :=
  mkState (<["PUT_ZIPS_HERE/pack1.zip" := ZipArchive pack1]> ∅)
          {[ "PUT_ZIPS_HERE"; "/Mods" ]} ∅ [] 0 0.


Definition st_mods : state := mkState ∅ {[ "/Mods" ]} ∅ [] 0 0.

(** An archive of two members, and a system that refuses to create the
    destination of the first. *)
Definition two_members : list ZipInfo :=
  [ mkZipInfo "a.package" false "aaa" true;
    mkZipInfo "b.package" false "bbb" true ].

Definition st_denied : state :=
  mkState (<["PUT_ZIPS_HERE/two.zip" := ZipArchive two_members]> ∅)
          {[ "PUT_ZIPS_HERE"; "/Mods" ]}
          (<["/Mods/_unsorted/a.package" := Denied]> ∅) [] 0 0.

(** A rule set whose second pattern does not compile, in its
    [config.json], and an archive whose second member reaches that rule. *)
Definition cfg_broken : config :=
  mkConfig None None None (Some [("hair", "hair"); ("broken", "(")]).

Definition hair_and_shoe : list ZipInfo :=
  [ mkZipInfo "RedHair.package" false "red" true;
    mkZipInfo "Shoe.package" false "shoe" true ].

Definition sims_mods : string := "/home/u/Documents/Electronic Arts/The Sims 4/Mods".

Definition st_broken : state :=
  mkState (<["PUT_ZIPS_HERE/pack.zip" := ZipArchive hair_and_shoe]>
             (<[CONFIG_FILE := Raw Fragment.doc_broken]> ∅))
          {[ "PUT_ZIPS_HERE"; sims_mods ]} ∅ [] 0 0.

(** A damaged archive next to a sound one. *)
Definition st_damaged : state :=
  mkState (<["PUT_ZIPS_HERE/bad.zip" := Raw "not a zip"]>
             (<["PUT_ZIPS_HERE/pack1.zip" := ZipArchive pack1]> ∅))
          {[ "PUT_ZIPS_HERE"; "/Mods" ]} ∅ [] 0 0.

(** Two members in different folders of one archive, with one base name. *)
Definition two_hats : list ZipInfo :=
  [ mkZipInfo "a/Hat.package" false "first" true;
    mkZipInfo "b/Hat.package" false "second" true ].

(** A member whose stored bytes fail the integrity check. *)
Definition bad_crc : ZipInfo := mkZipInfo "Cap.package" false "cap" false.

(** The source folder with a regular file where the folder of processed
    archives should be. *)
Definition st_blocked : state :=
  mkState (<["PUT_ZIPS_HERE/processed_archive" := Raw "in the way"]>
             (<["PUT_ZIPS_HERE/pack1.zip" := ZipArchive pack1]> ∅))
          {[ "PUT_ZIPS_HERE"; "/Mods" ]} ∅ [] 0 0.

(** An archive that holds no tracked member. *)
Definition st_docs : state :=
  mkState (<["PUT_ZIPS_HERE/docs.zip" :=
              ZipArchive [ mkZipInfo "notes.txt" false "n" true;
                           mkZipInfo "folder/" true "" true ]]> ∅)
          {[ "PUT_ZIPS_HERE"; "/Mods" ]} ∅ [] 0 0.

(** A Mods folder that already holds a file under the name an archive
    member will claim. *)
Definition st_kept : state :=
  mkState (<["/Mods/hair/RedHair.package" := Raw "mine"]>
             (<["PUT_ZIPS_HERE/pack1.zip" := ZipArchive pack1]> ∅))
          {[ "PUT_ZIPS_HERE"; "/Mods"; "/Mods/hair" ]} ∅ [] 0 0.

(** The bytes of U+212A KELVIN SIGN, and a member whose extension is
    spelled with it. *)
Definition kelvin_sign : string := String "226" (String "132" (String "170" "")).

Definition kelvin_member : ZipInfo :=
  mkZipInfo ("Cloak.pac" +:+ kelvin_sign +:+ "age") false "cloak" true.




(** A category that names a folder inside a folder, and one that is an
    absolute path. *)
Definition cfg_nested : config :=
  mkConfig None None None (Some [("CAS/Hair", "hair"); ("/tmp/evil", "eye")]).

(** ** Facts about strings *)

Lemma lower_step (c : ascii) (s : string) :
  kelvin_head (String c s) = false ->
  lower (String c s) = String (lower_ascii c) (lower s).
Proof.
  destruct s as [|c2 [|c3 s3]]; try reflexivity.
  cbn [kelvin_head lower]. now intros ->.
Qed.

Lemma lower_kelvin (c1 c2 c3 : ascii) (s : string) :
  is_kelvin c1 c2 c3 = true ->
  lower (String c1 (String c2 (String c3 s))) = String "k" (lower s).
Proof. cbn [lower]. now intros ->. Qed.

Lemma is_kelvin_inv (c1 c2 c3 : ascii) :
  is_kelvin c1 c2 c3 = true -> c1 = "226"%char /\ c2 = "132"%char /\ c3 = "170"%char.
Proof.
  unfold is_kelvin. intros Hk.
  apply andb_true_iff in Hk as [Hk H3]. apply andb_true_iff in Hk as [H1 H2].
  now apply Ascii.eqb_eq in H1, H2, H3.
Qed.

(** Induction along the way [lower] reads its argument. *)
Lemma lower_ind (P : string -> Prop) :
  P "" ->
  (forall s, P s -> P (String "226" (String "132" (String "170" s)))) ->
  (forall c s, kelvin_head (String c s) = false -> P s -> P (String c s)) ->
  forall s, P s.
Proof.
  intros H0 Hk Hc s.
  assert (Hn : forall n s, String.length s <= n -> P s).
  { clear s. induction n as [|n IH]; intros s Hs.
    - destruct s; [exact H0 | simpl in Hs; lia].
    - destruct s as [|c1 s1]; [exact H0 |].
      destruct (kelvin_head (String c1 s1)) eqn:E.
      + destruct s1 as [|c2 [|c3 s3]]; try discriminate.
        cbn [kelvin_head] in E. apply is_kelvin_inv in E as (-> & -> & ->).
        apply Hk, IH. simpl in Hs. lia.
      + apply Hc; [exact E |]. apply IH. simpl in Hs. lia. }
  now apply (Hn (String.length s)).
Qed.

Lemma endswith_cons (c : ascii) (s suf : string) :
  endswith (String c s) suf
  = if String.eqb (String c s) suf then true else endswith s suf.
Proof. reflexivity. Qed.

Lemma endswith_refl (s : string) : endswith s s = true.
Proof. destruct s; [reflexivity |]. now rewrite endswith_cons, String.eqb_refl. Qed.

Lemma endswith_app (a b : string) : endswith (a +:+ b) b = true.
Proof.
  induction a as [|c a IH].
  - apply endswith_refl.
  - change (String c a +:+ b) with (String c (a +:+ b)).
    rewrite endswith_cons, IH. now destruct (String.eqb _ _).
Qed.

Lemma endswith_inv (s suf : string) :
  endswith s suf = true -> exists pre, s = pre +:+ suf.
Proof.
  induction s as [|c s IH].
  - destruct suf; simpl; [now exists "" | discriminate].
  - rewrite endswith_cons. destruct (String.eqb (String c s) suf) eqn:E.
    + apply String.eqb_eq in E. intros _. now exists "".
    + intros Hs. destruct (IH Hs) as [pre ->]. now exists (String c pre).
Qed.

Lemma is_sep_lower (c : ascii) : is_sep (lower_ascii c) = is_sep c.
Proof. destruct c as [[] [] [] [] [] [] [] []]; reflexivity. Qed.

Lemma has_sep_lower (s : string) : has_sep (lower s) = has_sep s.
Proof.
  induction s as [|s IH|c s Hk IH] using lower_ind; [reflexivity | |].
  - rewrite lower_kelvin by reflexivity. exact IH.
  - rewrite lower_step by exact Hk. cbn [has_sep]. now rewrite is_sep_lower, IH.
Qed.


Lemma basename_nosep (p : string) : has_sep p = false -> basename p = p.
Proof.
  destruct p as [|c p]; simpl; [reflexivity |].
  intros Hs. apply orb_false_iff in Hs as [Hc Hp]. now rewrite Hp, Hc.
Qed.

Lemma has_sep_basename (p : string) : has_sep (basename p) = false.
Proof.
  induction p as [|c p IH]; simpl; [reflexivity |].
  destruct (has_sep p) eqn:Hp; [exact IH |].
  destruct (is_sep c) eqn:Hc; simpl; [exact Hp | now rewrite Hc, Hp].
Qed.


Lemma basename_cons_name (c : ascii) (p : string) :
  is_name (basename p) = true -> is_name (basename (String c p)) = true.
Proof.
  intros Hn. cbn [basename]. destruct (has_sep p) eqn:Hp; [exact Hn |].
  rewrite (basename_nosep p Hp) in Hn.
  destruct (is_sep c); [exact Hn |].
  destruct p as [|c' p]; [discriminate |].
  unfold is_name. cbn. destruct (Ascii.eqb c "."); reflexivity.
Qed.

(** A name with the tracked extension has a base name, and one that is a
    path component: the second [continue] (line 79) never fires after the
    first one (line 73). *)
Lemma tracked_name (p : string) :
  endswith (lower p) ".package" = true -> is_name (basename p) = true.
Proof.
  induction p as [|s IH|c s Hk IH] using lower_ind; [discriminate | |].
  - rewrite lower_kelvin by reflexivity. rewrite endswith_cons.
    change (String.eqb (String "k" (lower s)) ".package") with false.
    intros Hs. now do 3 apply basename_cons_name; apply IH.
  - rewrite lower_step by exact Hk. rewrite endswith_cons.
    destruct (String.eqb (String (lower_ascii c) (lower s)) ".package") eqn:E.
    + intros _. apply String.eqb_eq in E.
      assert (Hs : has_sep (String c s) = false).
      { rewrite <- has_sep_lower, lower_step by exact Hk. now rewrite E. }
      rewrite (basename_nosep _ Hs).
      destruct s as [|c' s]; [discriminate |].
      unfold is_name. cbn. destruct (Ascii.eqb c "."); reflexivity.
    + intros Hs. now apply basename_cons_name, IH.
Qed.

Lemma is_name_nonempty (x : string) : is_name x = true -> x <> "".
Proof. now intros Hn ->. Qed.

Lemma tracked_basename (p : string) :
  endswith (lower p) ".package" = true -> basename p <> "".
Proof. intros Hp. now apply is_name_nonempty, tracked_name. Qed.

(** Lower-casing the end of a name does not depend on what stands before
    it, unless the end starts inside the bytes of a KELVIN SIGN. *)
Lemma lower_suffix (a b : string) :
  match b with
  | String c _ => negb (Ascii.eqb c "132") && negb (Ascii.eqb c "170") = true
  | EmptyString => True
  end ->
  exists pre, lower (a +:+ b) = pre +:+ lower b.
Proof.
  intros Hb. induction a as [|s IH|c s Hk IH] using lower_ind.
  - now exists "".
  - destruct IH as [pre IH]. exists (String "k" pre).
    change (String "226" (String "132" (String "170" s)) +:+ b)
      with (String "226" (String "132" (String "170" (s +:+ b)))).
    rewrite lower_kelvin by reflexivity. now rewrite IH.
  - destruct IH as [pre IH]. exists (String (lower_ascii c) pre).
    change (String c s +:+ b) with (String c (s +:+ b)).
    rewrite lower_step; [now rewrite IH |].
    destruct s as [|c2 [|c3 s3]].
    + destruct b as [|b1 [|b2 b']]; try reflexivity.
      apply andb_true_iff in Hb as [Hb _]. apply negb_true_iff in Hb.
      change ("" +:+ String b1 (String b2 b')) with (String b1 (String b2 b')).
      cbn [kelvin_head]. unfold is_kelvin. now rewrite Hb, andb_false_r.
    + destruct b as [|b1 b']; try reflexivity.
      apply andb_true_iff in Hb as [_ Hb]. apply negb_true_iff in Hb.
      change (String c2 "" +:+ String b1 b') with (String c2 (String b1 b')).
      cbn [kelvin_head]. unfold is_kelvin. now rewrite Hb, andb_false_r.
    + exact Hk.
Qed.

(** Any casing of the tracked extension at the end of a name is found. *)
Lemma tracked_suffix (stem ext : string) :
  lower ext = ".package" -> endswith (lower (stem +:+ ext)) ".package" = true.
Proof.
  intros He. destruct (lower_suffix stem ext) as [pre Hpre].
  - destruct ext as [|c ext]; [exact I |].
    destruct (kelvin_head (String c ext)) eqn:Hk.
    + destruct ext as [|c2 [|c3 ext]]; try discriminate.
      cbn [kelvin_head] in Hk. now rewrite lower_kelvin in He.
    + rewrite lower_step in He by exact Hk. injection He as Hc _.
      destruct c as [[] [] [] [] [] [] [] []]; try discriminate Hc; reflexivity.
  - rewrite Hpre, He. apply endswith_app.
Qed.

(** ** Facts about paths *)

Lemma split_sep_cons (c : ascii) (s : string) :
  split_sep (String c s)
  = if is_sep c then "" :: split_sep s
    else match split_sep s with
         | x :: xs => String c x :: xs
         | [] => [String c ""]
         end.
Proof. reflexivity. Qed.

Lemma split_sep_nonempty (s : string) : split_sep s <> [].
Proof.
  induction s as [|c s IH]; [discriminate |].
  rewrite split_sep_cons. destruct (is_sep c); [discriminate |].
  now destruct (split_sep s).
Qed.

Lemma split_sep_nosep (s : string) :
  Forall (fun x => has_sep x = false) (split_sep s).
Proof.
  induction s as [|c s IH]; [repeat constructor |].
  rewrite split_sep_cons. destruct (is_sep c) eqn:Hc; [now constructor |].
  destruct (split_sep s) as [|x xs]; [repeat constructor; simpl; now rewrite Hc |].
  apply Forall_cons in IH as [Hx Hxs]. constructor; [| exact Hxs].
  simpl. now rewrite Hc, Hx.
Qed.

Lemma split_sep_single (s : string) : has_sep s = false -> split_sep s = [s].
Proof.
  induction s as [|c s IH]; [reflexivity |].
  simpl. intros Hs. apply orb_false_iff in Hs as [Hc Hs].
  now rewrite Hc, (IH Hs).
Qed.

Lemma split_sep_app (a b : string) :
  split_sep (a +:+ String "/" b) = split_sep a ++ split_sep b.
Proof.
  induction a as [|c a IH]; [reflexivity |].
  change (String c a +:+ String "/" b) with (String c (a +:+ String "/" b)).
  rewrite !split_sep_cons, IH. destruct (is_sep c); [reflexivity |].
  pose proof (split_sep_nonempty a) as Hne.
  now destruct (split_sep a).
Qed.

Lemma join_names_cons (x y : string) (l : list string) :
  join_names (x :: y :: l) = x +:+ String "/" (join_names (y :: l)).
Proof. reflexivity. Qed.

Lemma split_join (ns : list string) :
  ns <> [] -> Forall (fun x => has_sep x = false) ns ->
  split_sep (join_names ns) = ns.
Proof.
  induction ns as [|x ns IH]; [contradiction |]. intros _ Hall.
  apply Forall_cons in Hall as [Hx Hall].
  destruct ns as [|y ns]; [now apply split_sep_single |].
  rewrite join_names_cons, split_sep_app, (split_sep_single x Hx).
  now rewrite IH.
Qed.

Lemma path_names_valid (s : string) : Forall valid_name (path_names s).
Proof.
  unfold path_names. pose proof (split_sep_nosep s) as Hall.
  induction Hall as [|x l Hx _ IH]; [constructor |].
  cbn [List.filter]. destruct (is_name x) eqn:Hn; [| exact IH].
  constructor; [now split | exact IH].
Qed.

Lemma filter_names (ns : list string) :
  Forall valid_name ns -> List.filter is_name ns = ns.
Proof.
  induction 1 as [|x l [Hx _] _ IH]; [reflexivity |].
  cbn [List.filter]. now rewrite Hx, IH.
Qed.

Lemma path_names_join (ns : list string) :
  Forall valid_name ns -> path_names (join_names ns) = ns.
Proof.
  intros Hall. destruct ns as [|x ns]; [reflexivity |].
  unfold path_names. rewrite split_join; [now apply filter_names | discriminate |].
  eapply Forall_impl; [exact Hall |]. now intros y [_ Hy].
Qed.

Lemma path_names_name (b : string) : valid_name b -> path_names b = [b].
Proof. intros Hb. apply (path_names_join [b]). now constructor. Qed.

Lemma path_names_sep (s : string) : path_names (String "/" s) = path_names s.
Proof. reflexivity. Qed.

Lemma path_root_valid (s : string) : valid_root (path_root s).
Proof.
  unfold valid_root, path_root.
  destruct s as [|c1 [|c2 [|c3 s]]];
    repeat match goal with |- context [is_sep ?c] => destruct (is_sep c) end; auto.
Qed.

Lemma valid_name_head (x : string) :
  valid_name x -> exists c x', x = String c x' /\ is_sep c = false.
Proof.
  intros [Hn Hs]. destruct x as [|c x']; [discriminate |].
  exists c, x'. split; [reflexivity |]. simpl in Hs. now apply orb_false_iff in Hs.
Qed.

Lemma join_names_head (x : string) (ns : list string) :
  valid_name x ->
  exists c s, join_names (x :: ns) = String c s /\ is_sep c = false.
Proof.
  intros Hx. destruct (valid_name_head x Hx) as (c & x' & -> & Hc).
  destruct ns as [|y ns]; [now exists c, x' |].
  rewrite join_names_cons. now exists c, (x' +:+ String "/" (join_names (y :: ns))).
Qed.

(** Parsing what [render] wrote gives the root and the names back. *)
Lemma path_names_render (r : string) (ns : list string) :
  valid_root r -> Forall valid_name ns -> path_names (render r ns) = ns.
Proof.
  intros Hr Hall.
  destruct Hr as [-> | [-> | ->]].
  - destruct ns as [|x ns]; [reflexivity |]. now apply path_names_join.
  - destruct ns as [|x ns]; [reflexivity |].
    change (render "/" (x :: ns)) with (String "/" (join_names (x :: ns))).
    rewrite path_names_sep. now apply path_names_join.
  - destruct ns as [|x ns]; [reflexivity |].
    change (render "//" (x :: ns)) with (String "/" (String "/" (join_names (x :: ns)))).
    rewrite !path_names_sep. now apply path_names_join.
Qed.

Lemma path_root_render (r : string) (ns : list string) :
  valid_root r -> Forall valid_name ns -> path_root (render r ns) = r.
Proof.
  intros Hr Hall.
  destruct ns as [|x ns]; [now destruct Hr as [-> | [-> | ->]] |].
  apply Forall_cons in Hall as [Hx _].
  destruct (join_names_head x ns Hx) as (c & s & Hj & Hc).
  destruct Hr as [-> | [-> | ->]].
  - change (render "" (x :: ns)) with (join_names (x :: ns)).
    rewrite Hj. cbn [path_root]. now rewrite Hc.
  - change (render "/" (x :: ns)) with (String "/" (join_names (x :: ns))).
    rewrite Hj. cbn [path_root]. now rewrite Hc.
  - change (render "//" (x :: ns)) with (String "/" (String "/" (join_names (x :: ns)))).
    rewrite Hj. cbn [path_root]. now rewrite Hc.
Qed.

(** The shape of a joined path. *)
Lemma joinpath_render (a b : string) :
  exists r ns, valid_root r /\ Forall valid_name ns /\ joinpath a b = render r ns.
Proof.
  unfold joinpath. destruct (path_root b) eqn:Hb.
  - exists (path_root a), (path_names a ++ path_names b).
    split; [apply path_root_valid |]. split; [| reflexivity].
    apply Forall_app. split; apply path_names_valid.
  - exists (path_root b), (path_names b). rewrite Hb.
    split; [rewrite <- Hb; apply path_root_valid |].
    split; [apply path_names_valid | reflexivity].
Qed.

Lemma path_root_nosep (b : string) : has_sep b = false -> path_root b = "".
Proof.
  destruct b as [|c b]; [reflexivity |]. simpl.
  intros Hb. apply orb_false_iff in Hb as [Hc _]. now rewrite Hc.
Qed.

(** A path with a name keeps having one when a relative path is joined. *)
Lemma is_anchor_joinpath (a b : string) :
  is_anchor a = false -> path_root b = "" -> is_anchor (joinpath a b) = false.
Proof.
  intros Ha Hb. unfold joinpath. rewrite Hb. unfold is_anchor in *.
  rewrite path_names_render.
  - now destruct (path_names a).
  - apply path_root_valid.
  - apply Forall_app. split; apply path_names_valid.
Qed.

(** A joined path is in pathlib's normal form. *)
Lemma normpath_render (r : string) (ns : list string) :
  valid_root r -> Forall valid_name ns -> normpath (render r ns) = render r ns.
Proof.
  intros Hr Hall. unfold normpath.
  now rewrite path_root_render, path_names_render.
Qed.

Lemma normpath_joinpath (a b : string) : normpath (joinpath a b) = joinpath a b.
Proof.
  destruct (joinpath_render a b) as (r & ns & Hr & Hall & ->).
  now apply normpath_render.
Qed.

Lemma normpath_idem (s : string) : normpath (normpath s) = normpath s.
Proof. apply normpath_render; [apply path_root_valid | apply path_names_valid]. Qed.

Lemma path_root_name (b : string) : valid_name b -> path_root b = "".
Proof.
  intros Hb. destruct (valid_name_head b Hb) as (c & b' & -> & Hc).
  cbn [path_root]. now rewrite Hc.
Qed.

(** Joining a name to a path appends it. *)
Lemma joinpath_name (d b : string) :
  valid_name b -> joinpath d b = render (path_root d) (path_names d ++ [b]).
Proof.
  intros Hb. unfold joinpath. now rewrite (path_root_name b Hb), (path_names_name b Hb).
Qed.

Lemma heads_snoc {A} (l : list A) (x : A) :
  heads (l ++ [x]) = heads l ++ [l ++ [x]].
Proof.
  induction l as [|y l IH]; [reflexivity |].
  cbn [heads app]. rewrite IH, map_app. reflexivity.
Qed.







Lemma is_anchor_joinpath_name (d b : string) :
  valid_name b -> is_anchor (joinpath d b) = false.
Proof.
  intros Hb. rewrite (joinpath_name d b Hb). unfold is_anchor.
  rewrite path_names_render.
  - now destruct (path_names d).
  - apply path_root_valid.
  - apply Forall_app. split; [apply path_names_valid | now constructor].
Qed.


Lemma lineage_normpath (s : string) : lineage (normpath s) = lineage s.
Proof.
  unfold lineage, normpath.
  now rewrite path_root_render, path_names_render
    by (apply path_root_valid || apply path_names_valid).
Qed.

Lemma is_anchor_normpath (s : string) : is_anchor (normpath s) = is_anchor s.
Proof.
  unfold is_anchor, normpath.
  now rewrite path_names_render by (apply path_root_valid || apply path_names_valid).
Qed.

(** A path in normal form that has a name heads its own lineage. *)
Lemma lineage_head (p : string) :
  normpath p = p -> is_anchor p = false -> exists up, lineage p = p :: up.
Proof.
  intros Hp Ha. unfold is_anchor in Ha. unfold lineage.
  destruct (path_names p) as [|x ns] eqn:Hn; [discriminate |].
  destruct (exists_last (l := x :: ns)) as (l & y & Hl); [discriminate |].
  rewrite Hl, heads_snoc, reverse_snoc. cbn [map].
  eexists. f_equal. rewrite <- Hl, <- Hn. exact Hp.
Qed.

(** ** Facts about the script *)

Section Facts.
Context `{PyLib}.

(** The search through the rules reads and writes no state. *)
Lemma search_rules_pure items base t f st st' :
  search_rules items base t f st = (fst (search_rules items base t f st'), st).
Proof.
  induction items as [|[k p] items IH]; simpl; [reflexivity |].
  unfold bind, re_search. destruct (re_compile p) as [r|]; simpl; [| reflexivity].
  destruct (regex_search r base); simpl; [reflexivity | apply IH].
Qed.

Lemma classify_pure cfg base st :
  classify cfg base st = (classification cfg base, st).
Proof. apply search_rules_pure. Qed.

Lemma makedirs_cons p up st :
  makedirs (p :: up) st
  = if bool_decide (p ∈ dirs st) then (inr tt, st)
    else if bool_decide (is_Some (files st !! p)) then (inl (OSError p), st)
    else match makedirs up st with
         | (inl e, s1) => (inl e, s1)
         | (inr _, s1) =>
             if bool_decide (is_Some (faults s1 !! p)) then (inl (OSError p), s1)
             else (inr tt, set_dirs ({[p]} ∪ dirs s1) s1)
         end.
Proof.
  cbn [makedirs]. unfold bind, get_state, ret, raise, modify.
  destruct (bool_decide (p ∈ dirs st)); [reflexivity |].
  destruct (bool_decide (is_Some (files st !! p))); [reflexivity |].
  destruct (makedirs up st) as [[e|[]] s1]; [reflexivity |].
  now destruct (bool_decide (is_Some (faults s1 !! p))).
Qed.

(** What [makedirs] does: it makes directories of its chain, and nothing
    else changes. *)
Lemma makedirs_spec chain st :
  files (snd (makedirs chain st)) = files st /\
  faults (snd (makedirs chain st)) = faults st /\
  stdout (snd (makedirs chain st)) = stdout st /\
  count_moved (snd (makedirs chain st)) = count_moved st /\
  count_unsorted (snd (makedirs chain st)) = count_unsorted st /\
  dirs st ⊆ dirs (snd (makedirs chain st)) /\
  (forall q, q ∈ dirs (snd (makedirs chain st)) -> q ∈ dirs st \/ q ∈ chain) /\
  (forall e, fst (makedirs chain st) = inl e -> exists q, e = OSError q) /\
  (fst (makedirs chain st) = inr tt ->
   match chain with
   | p :: _ => p ∈ dirs (snd (makedirs chain st))
   | [] => True
   end).
Proof.
  revert st. induction chain as [|p up IH]; intros st.
  { cbn. split_and!; auto. discriminate. }
  rewrite makedirs_cons.
  destruct (bool_decide (p ∈ dirs st)) eqn:Hp.
  { apply bool_decide_eq_true in Hp. cbn. split_and!; auto. discriminate. }
  destruct (bool_decide (is_Some (files st !! p))) eqn:Hf.
  { cbn. split_and!; auto; [intros e [= <-]; eauto | discriminate]. }
  destruct (IH st) as (H1 & H2 & H3 & H4 & H5 & H6 & H7 & H8 & _).
  destruct (makedirs up st) as [[e|[]] s1]; cbn [fst snd] in *.
  { split_and!; auto; [| discriminate].
    intros q Hq. destruct (H7 q Hq); [now left | right; now apply list_elem_of_further]. }
  destruct (bool_decide (is_Some (faults s1 !! p))); cbn.
  - split_and!; auto; [| intros e [= <-]; eauto | discriminate].
    intros q Hq. destruct (H7 q Hq); [now left | right; now apply list_elem_of_further].
  - split_and!; auto; try discriminate.
    + etransitivity; [exact H6 | apply union_subseteq_r].
    + intros q Hq. apply elem_of_union in Hq as [Hq | Hq].
      * apply elem_of_singleton in Hq as ->. right. apply list_elem_of_here.
      * destruct (H7 q Hq); [now left | right; now apply list_elem_of_further].
    + intros _. apply elem_of_union_l, elem_of_singleton. reflexivity.
Qed.

Lemma with_dir_files d st : files (with_dir d st) = files st.
Proof. apply makedirs_spec. Qed.

Lemma with_dir_faults d st : faults (with_dir d st) = faults st.
Proof. apply makedirs_spec. Qed.

Lemma with_dir_stdout d st : stdout (with_dir d st) = stdout st.
Proof. apply makedirs_spec. Qed.

Lemma with_dir_counts d st :
  count_moved (with_dir d st) = count_moved st /\
  count_unsorted (with_dir d st) = count_unsorted st.
Proof. split; apply makedirs_spec. Qed.

Lemma with_dir_sub d st : dirs st ⊆ dirs (with_dir d st).
Proof. apply makedirs_spec. Qed.

(** A directory that [mkdir] made is the path or one of its ancestors. *)
Lemma with_dir_new d st q :
  q ∈ dirs (with_dir d st) -> q ∈ dirs st \/ q ∈ lineage d.
Proof. apply makedirs_spec. Qed.

Lemma mkdir_run d st : mkdir d st = (fst (mkdir d st), with_dir d st).
Proof. unfold with_dir. now destruct (mkdir d st). Qed.

Lemma mkdir_error d st e : fst (mkdir d st) = inl e -> exists q, e = OSError q.
Proof. apply makedirs_spec. Qed.

Lemma mkdir_fails_false d st :
  mkdir_fails d st = false <-> fst (mkdir d st) = inr tt.
Proof.
  unfold mkdir_fails. destruct (fst (mkdir d st)) as [e|[]]; split; auto; discriminate.
Qed.

Lemma lineage_cases p :
  (is_anchor p = true /\ lineage p = []) \/
  (is_anchor p = false /\ exists up, lineage p = normpath p :: up).
Proof.
  unfold is_anchor, lineage, normpath.
  destruct (path_names p) as [|x ns]; [now left | right].
  split; [reflexivity |].
  destruct (exists_last (l := x :: ns)) as (l & y & Hl); [discriminate |].
  rewrite Hl, heads_snoc, reverse_snoc. cbn [map]. eauto.
Qed.

Lemma is_directory_dirs p st st' :
  dirs st ⊆ dirs st' -> is_directory p st = true -> is_directory p st' = true.
Proof.
  unfold is_directory. intros Hd Hp.
  apply orb_true_iff in Hp as [Hp | Hp]; apply orb_true_iff; [left | now right].
  apply bool_decide_eq_true in Hp. apply bool_decide_eq_true. now apply Hd.
Qed.

(** After a [mkdir] that went through the path is a directory. *)
Lemma mkdir_makes d st :
  mkdir_fails d st = false -> is_directory (normpath d) (with_dir d st) = true.
Proof.
  intros Hd. apply mkdir_fails_false in Hd. unfold is_directory.
  rewrite is_anchor_normpath.
  destruct (lineage_cases d) as [[Ha _] | [_ [up Hl]]]; [now rewrite Ha, orb_true_r |].
  destruct (makedirs_spec (lineage d) st) as (_ & _ & _ & _ & _ & _ & _ & _ & Hin).
  unfold mkdir in Hd. specialize (Hin Hd). unfold with_dir, mkdir.
  rewrite Hl in Hin |- *. now rewrite bool_decide_true.
Qed.

(** On a directory [mkdir] does nothing. *)
Lemma mkdir_present d st :
  is_directory (normpath d) st = true -> mkdir d st = (inr tt, st).
Proof.
  unfold is_directory, mkdir. rewrite is_anchor_normpath. intros Hd.
  destruct (lineage_cases d) as [[_ ->] | [Ha [up ->]]]; [reflexivity |].
  rewrite Ha, orb_false_r in Hd. cbn [makedirs]. unfold bind, get_state.
  now rewrite Hd.
Qed.

(** With its parent in place, [mkdir] makes the one directory. *)
Lemma mkdir_leaf d st :
  normpath d = d -> d ∉ dirs st -> is_anchor d = false ->
  files st !! d = None -> faults st !! d = None ->
  match lineage d with
  | _ :: parent :: _ => parent ∈ dirs st
  | _ => True
  end ->
  mkdir d st = (inr tt, set_dirs ({[d]} ∪ dirs st) st).
Proof.
  intros Hn Hdir Ha Hfile Hf Hp.
  destruct (lineage_cases d) as [[Ha' _] | [_ [up Hl]]]; [congruence |].
  rewrite Hn in Hl. unfold mkdir. rewrite Hl in *. rewrite makedirs_cons.
  rewrite (bool_decide_false _ Hdir), Hfile.
  rewrite bool_decide_false by (intros [? ?]; discriminate).
  assert (Hup : makedirs up st = (inr tt, st)).
  { destruct up as [|parent rest]; [reflexivity |].
    now rewrite makedirs_cons, bool_decide_true. }
  rewrite Hup, Hf.
  now rewrite bool_decide_false by (intros [? ?]; discriminate).
Qed.

Lemma exists_in_false p st :
  exists_in p st = false ->
  files st !! p = None /\ (p ∉ dirs st) /\ is_anchor p = false.
Proof.
  unfold exists_in, is_directory. intros Hx.
  apply orb_false_iff in Hx as [Hf Hd]. apply orb_false_iff in Hd as [Hd Ha].
  apply bool_decide_eq_false in Hf, Hd. split; [| now split].
  destruct (files st !! p); [exfalso; apply Hf; eauto | reflexivity].
Qed.


(** What [mkdir_exist_ok] does. *)
Lemma mkdir_exist_ok_run d st :
  mkdir_exist_ok d st
  = if mkdir_exist_ok_fails d st then (inl (OSError d), st)
    else (inr tt, with_leaf d st).
Proof.
  unfold mkdir_exist_ok_fails, with_leaf, mkdir_exist_ok, bind, get_state, ret, raise, modify.
  destruct (is_directory d st); [reflexivity |].
  destruct (_ || _); [reflexivity |].
  now destruct (match lineage d with _ :: parent :: _ => _ | _ => true end).
Qed.

Lemma with_leaf_spec d st :
  files (with_leaf d st) = files st /\
  faults (with_leaf d st) = faults st /\
  stdout (with_leaf d st) = stdout st /\
  count_moved (with_leaf d st) = count_moved st /\
  count_unsorted (with_leaf d st) = count_unsorted st /\
  dirs st ⊆ dirs (with_leaf d st) /\
  (mkdir_exist_ok_fails d st = false -> is_directory d (with_leaf d st) = true).
Proof.
  unfold mkdir_exist_ok_fails, with_leaf, mkdir_exist_ok, bind, get_state, ret, raise, modify.
  destruct (is_directory d st) eqn:Hd; [cbn; split_and!; auto |].
  destruct (_ || _); [cbn; split_and!; auto; discriminate |].
  destruct (match lineage d with _ :: parent :: _ => _ | _ => true end);
    cbn; split_and!; auto; try discriminate.
  - apply union_subseteq_r.
  - intros _. unfold is_directory. cbn.
    rewrite bool_decide_true; [reflexivity |].
    apply elem_of_union_l, elem_of_singleton. reflexivity.
Qed.

(** Lines 81-112 end in one of the listed ways. *)
Lemma extract_member_outcome cfg mods z fi base st :
  member_outcome cfg mods z fi base st (extract_member cfg mods z fi base st).
Proof.
  unfold extract_member. unfold bind at 1. rewrite classify_pure.
  destruct (classification cfg base) as [e|[cat found]] eqn:Hc.
  { now apply Unclassified. }
  cbn [fst snd]. unfold bind at 1. rewrite mkdir_run.
  destruct (fst (mkdir (joinpath mods cat) st)) as [e|[]] eqn:Hd.
  { now apply NoDirectory with found. }
  apply mkdir_fails_false in Hd.
  fold (dest_of mods cat base).
  set (st1 := with_dir (joinpath mods cat) st).
  unfold bind at 1, path_exists, bind at 1, get_state, ret.
  destruct (exists_in (dest_of mods cat base) st1) eqn:Hx.
  { now apply Skipped with found. }
  unfold bind at 1, print at 1, modify at 1.
  unfold bind at 1, open_wb, bind at 1, get_state.
  assert (Hnd : is_directory (dest_of mods cat base) (printed (MsgExtract base cat) st1) = false).
  { unfold exists_in in Hx. apply orb_false_iff in Hx as [_ Hx]. exact Hx. }
  rewrite Hnd.
  assert (Hf : faults (printed (MsgExtract base cat) st1) = faults st)
    by apply with_dir_faults.
  assert (Hfi : files (printed (MsgExtract base cat) st1) = files st)
    by apply with_dir_files.
  rewrite Hf.
  destruct (faults st !! dest_of mods cat base) as [[|n]|] eqn:Hfault.
  - unfold raise. now apply OpenFailed with found.
  - unfold modify at 1. unfold bind at 1, zip_read.
    destruct (read_result z (filename fi)) as [e|data] eqn:Hr.
    + rewrite Hfi. apply ReadFailed with found; try assumption. congruence.
    + unfold bind at 1, file_write, bind at 1, get_state. cbn [faults set_files].
      rewrite Hf, Hfault. unfold bind, modify, raise. cbn [files set_files].
      rewrite Hfi, insert_insert_eq.
      now apply WriteFailed with found.
  - unfold modify at 1. unfold bind at 1, zip_read.
    destruct (read_result z (filename fi)) as [e|data] eqn:Hr.
    + rewrite Hfi. apply ReadFailed with found; try assumption. congruence.
    + unfold bind at 1, file_write, bind at 1, get_state. cbn [faults set_files].
      rewrite Hf, Hfault. unfold modify. cbn [files set_files].
      rewrite Hfi, insert_insert_eq.
      now apply Extracted.
Qed.

Lemma process_member_ignored cfg mods z fi st :
  ignored fi = true -> process_member cfg mods z fi st = (inr tt, st).
Proof. intros Hi. unfold process_member. now rewrite Hi. Qed.

(** The base name of a tracked member is a path component. *)
Lemma eligible_name fi : eligible fi = true -> valid_name (basename (filename fi)).
Proof.
  unfold eligible, ignored. intros He.
  apply negb_true_iff, orb_false_iff in He as [He _].
  apply negb_false_iff in He.
  split; [now apply tracked_name | apply has_sep_basename].
Qed.

Lemma process_member_eligible cfg mods z fi st :
  eligible fi = true ->
  process_member cfg mods z fi st
  = extract_member cfg mods z fi (basename (filename fi)) st.
Proof.
  intros He. pose proof (eligible_name fi He) as [Hn _].
  apply is_name_nonempty, String.eqb_neq in Hn.
  unfold eligible in He. apply negb_true_iff in He.
  unfold process_member. now rewrite He, Hn.
Qed.

(** *** The loop only adds to the world *)

Lemma extends_refl st : extends st st.
Proof. repeat split; reflexivity. Qed.

Lemma extends_trans st1 st2 st3 :
  extends st1 st2 -> extends st2 st3 -> extends st1 st3.
Proof.
  intros (Hd & Hf & Ht & Ho) (Hd' & Hf' & Ht' & Ho').
  repeat split; [set_solver | | congruence |].
  - now transitivity (files st2).
  - now transitivity (stdout st2).
Qed.

Lemma extends_with_dir d st : extends st (with_dir d st).
Proof.
  unfold extends.
  rewrite with_dir_files, with_dir_faults, with_dir_stdout.
  repeat split; [apply with_dir_sub | reflexivity..].
Qed.

Lemma extends_printed m st : extends st (printed m st).
Proof. repeat split; simpl; try reflexivity. now apply prefix_app_r. Qed.

Lemma extends_counted b st : extends st (counted b st).
Proof. destruct b; repeat split; reflexivity. Qed.

Lemma extends_new_file p c st :
  files st !! p = None -> extends st (set_files (<[p := c]> (files st)) st).
Proof.
  intros Hp. repeat split; simpl; try reflexivity.
  now apply insert_subseteq.
Qed.

Lemma exists_in_extends p st st' :
  extends st st' -> exists_in p st = true -> exists_in p st' = true.
Proof.
  intros (Hd & Hf & _) Hx. unfold exists_in in *.
  apply orb_true_iff in Hx as [Hx|Hx]; apply orb_true_iff; [left | right].
  - apply bool_decide_eq_true in Hx. apply bool_decide_eq_true.
    destruct Hx as [c Hc]. exists c. eapply lookup_weaken; eassumption.
  - eapply is_directory_dirs; eassumption.
Qed.

Lemma outcome_extends cfg mods z fi base st r :
  member_outcome cfg mods z fi base st r -> extends st (snd r).
Proof.
  set (d := with_dir_files).
  destruct 1 as [e|cat f e|cat f Hc Hd Hx|cat f Hc Hd Hx|cat f e Hc Hd Hx
                 |cat f n data Hc Hd Hx|cat f data Hc Hd Hx]; cbn [snd];
    try apply extends_refl;
    try (apply exists_in_false in Hx as [Hx _]; rewrite with_dir_files in Hx).
  - apply extends_with_dir.
  - eapply extends_trans; [apply extends_with_dir | apply extends_printed].
  - eapply extends_trans; [apply extends_with_dir | apply extends_printed].
  - eapply extends_trans; [apply extends_with_dir |].
    eapply extends_trans; [apply extends_printed |].
    rewrite <- (with_dir_files (joinpath mods cat) st) at 1.
    apply (extends_new_file _ _ (printed _ _)). simpl. now rewrite with_dir_files.
  - eapply extends_trans; [apply extends_with_dir |].
    eapply extends_trans; [apply extends_printed |].
    rewrite <- (with_dir_files (joinpath mods cat) st) at 1.
    apply (extends_new_file _ _ (printed _ _)). simpl. now rewrite with_dir_files.
  - eapply extends_trans; [apply extends_with_dir |].
    eapply extends_trans; [apply extends_printed |].
    eapply extends_trans; [| apply extends_counted].
    rewrite <- (with_dir_files (joinpath mods cat) st) at 1.
    apply (extends_new_file _ _ (printed _ _)). simpl. now rewrite with_dir_files.
Qed.

Lemma process_member_extends cfg mods z fi st :
  extends st (snd (process_member cfg mods z fi st)).
Proof.
  unfold process_member. destruct (ignored fi); [apply extends_refl |].
  destruct (String.eqb _ _); [apply extends_refl |].
  eapply outcome_extends, extract_member_outcome.
Qed.

Lemma for_each_cons {A} (x : A) l body st :
  for_each (x :: l) body st
  = match body x st with
    | (inl e, s) => (inl e, s)
    | (inr _, s) => for_each l body s
    end.
Proof. reflexivity. Qed.

Lemma for_each_app {A} (l1 l2 : list A) body st :
  for_each (l1 ++ l2) body st
  = match for_each l1 body st with
    | (inl e, s) => (inl e, s)
    | (inr _, s) => for_each l2 body s
    end.
Proof.
  revert st. induction l1 as [|x l1 IH]; intros st; [reflexivity |].
  rewrite <- app_comm_cons, !for_each_cons.
  destruct (body x st) as [[e|[]] s]; [reflexivity | apply IH].
Qed.

Lemma scan_extends cfg mods z ms st :
  extends st (snd (scan_members cfg mods z ms st)).
Proof.
  unfold scan_members. revert st. induction ms as [|fi ms IH]; intros st.
  - apply extends_refl.
  - rewrite for_each_cons.
    pose proof (process_member_extends cfg mods z fi st) as He.
    destruct (process_member cfg mods z fi st) as [[e|[]] s]; [exact He |].
    eapply extends_trans; [exact He | apply IH].
Qed.

Lemma settled_extends cfg mods fi st st' :
  extends st st' -> settled cfg mods fi st -> settled cfg mods fi st'.
Proof.
  intros He (cat & found & Hc & Hd & Hx). exists cat, found.
  split; [exact Hc |]. split.
  - destruct He as (He & _). eapply is_directory_dirs; eassumption.
  - eapply exists_in_extends; eassumption.
Qed.

Lemma exists_in_new_file p c st st' :
  files st' = <[p := c]> (files st) -> exists_in p st' = true.
Proof.
  intros Hf. unfold exists_in. rewrite Hf, lookup_insert_eq.
  apply orb_true_iff. left. apply bool_decide_eq_true. eauto.
Qed.

(** A member that came through without an exception printed one line,
    and its destination is in place afterwards. *)
Lemma outcome_ok cfg mods z fi st st' :
  member_outcome cfg mods z fi (basename (filename fi)) st (inr tt, st') ->
  settled cfg mods fi st' /\
  exists ev, member_event cfg fi ev /\ stdout st' = stdout st ++ [ev].
Proof.
  inversion 1 as [| |cat f Hc Hd Hx| | | |cat f data Hc Hd Hx Hf Hr]; subst;
    apply mkdir_makes in Hd; rewrite normpath_joinpath in Hd.
  - split.
    + exists cat, f. split; [exact Hc |]. split; [exact Hd | exact Hx].
    + exists (MsgSkip cat (basename (filename fi))). split.
      * exists cat, f. auto.
      * cbn [stdout printed set_stdout]. now rewrite with_dir_stdout.
  - split.
    + exists cat, f. split; [exact Hc |]. split.
      * now destruct f.
      * eapply (exists_in_new_file _ (Raw data) st). now destruct f.
    + exists (MsgExtract (basename (filename fi)) cat). split.
      * exists cat, f. auto.
      * destruct f; cbn [stdout counted set_counts set_files printed set_stdout];
          now rewrite with_dir_stdout.
Qed.

(** A member whose destination is in place is reported and passed over. *)
Lemma process_member_settled cfg mods z fi st :
  eligible fi = true -> settled cfg mods fi st ->
  process_member cfg mods z fi st = (inr tt, printed (skip_line cfg fi) st).
Proof.
  intros He (cat & found & Hc & Hd & Hx).
  rewrite (process_member_eligible _ _ _ _ _ He).
  unfold extract_member, skip_line. unfold bind at 1. rewrite classify_pure, Hc.
  cbn [fst snd]. unfold bind at 1.
  rewrite mkdir_present by (now rewrite normpath_joinpath).
  unfold bind at 1, path_exists, bind at 1, get_state, ret.
  unfold dest_of in Hx. rewrite Hx. reflexivity.
Qed.


(** After a pass that ended well every eligible member is in place, and
    the pass printed one line for each of them, in order. *)
Lemma scan_ok cfg mods z ms st st' :
  scan_members cfg mods z ms st = (inr tt, st') ->
  Forall (fun fi => eligible fi = true -> settled cfg mods fi st') ms /\
  exists evs, Forall2 (member_event cfg) (filter (fun fi => eligible fi = true) ms) evs /\
              stdout st' = stdout st ++ evs.
Proof.
  unfold scan_members. revert st. induction ms as [|fi ms IH]; intros st.
  - intros [= <-]. split; [constructor |]. exists []. split; [constructor |].
    now rewrite app_nil_r.
  - rewrite for_each_cons.
    destruct (process_member cfg mods z fi st) as [[e|[]] s] eqn:Hm; [discriminate |].
    intros Hs. destruct (IH s Hs) as (Hall & evs & Hev & Hout).
    pose proof (scan_extends cfg mods z ms s) as Hext.
    unfold scan_members in Hext. rewrite Hs in Hext. cbn [snd] in Hext.
    destruct (eligible fi) eqn:He.
    + rewrite (process_member_eligible _ _ _ _ _ He) in Hm.
      pose proof (extract_member_outcome cfg mods z fi (basename (filename fi)) st) as Ho.
      rewrite Hm in Ho. apply outcome_ok in Ho as (Hset & ev & Hev1 & Hout1).
      split.
      * constructor; [| exact Hall]. intros _. eapply settled_extends; eassumption.
      * exists (ev :: evs). split.
        -- rewrite filter_cons_True by exact He. now constructor.
        -- rewrite Hout, Hout1, <- app_assoc. reflexivity.
    + rewrite process_member_ignored in Hm
        by (unfold eligible in He; now apply negb_false_iff in He).
      injection Hm as <-. split.
      * constructor; [congruence | exact Hall].
      * exists evs. split; [| exact Hout].
        rewrite filter_cons_False by (rewrite He; discriminate). exact Hev.
Qed.


(** *** The search through the rules *)

Lemma search_rules_hit k p r items base t f st :
  re_compile p = Some r -> regex_search r base = true ->
  search_rules ((k, p) :: items) base t f st = (inr (k, true), st).
Proof. intros Hc Hs. cbn. unfold bind, re_search. now rewrite Hc, Hs. Qed.

Lemma search_rules_miss k p r items base t f st :
  re_compile p = Some r -> regex_search r base = false ->
  search_rules ((k, p) :: items) base t f st = search_rules items base t f st.
Proof. intros Hc Hs. cbn. unfold bind, re_search. now rewrite Hc, Hs. Qed.

Lemma search_rules_bad k p items base t f st :
  re_compile p = None ->
  search_rules ((k, p) :: items) base t f st = (inl (ReError p), st).
Proof. intros Hc. cbn. unfold bind, re_search. now rewrite Hc. Qed.

Lemma search_rules_skip pre items base t f st :
  (forall k p, (k, p) ∈ pre ->
     exists r, re_compile p = Some r /\ regex_search r base = false) ->
  search_rules (pre ++ items) base t f st = search_rules items base t f st.
Proof.
  induction pre as [|[k p] pre IH]; intros Hpre; [reflexivity |].
  destruct (Hpre k p) as (r & Hc & Hs); [apply list_elem_of_here |].
  rewrite <- app_comm_cons, (search_rules_miss _ _ r) by assumption.
  apply IH. intros k' p' Hin. apply (Hpre k'). now apply list_elem_of_further.
Qed.

(** Where the search ends: at a key of the rules with [found_match] set, at
    the values the two locals had before the loop, or with the [re.error]
    of a pattern of the rules. *)
Lemma search_rules_range items base t f st :
  match fst (search_rules items base t f st) with
  | inr (cat, found) =>
      (found = true /\ cat ∈ items.*1) \/ (found = f /\ cat = t)
  | inl e => exists p, e = ReError p /\ re_compile p = None /\ p ∈ items.*2
  end.
Proof.
  induction items as [|[k p] items IH]; [right; auto |].
  destruct (re_compile p) as [r|] eqn:Hc.
  - destruct (regex_search r base) eqn:Hs.
    + rewrite (search_rules_hit _ _ r) by assumption. left.
      split; [reflexivity | apply list_elem_of_here].
    + rewrite (search_rules_miss _ _ r) by assumption.
      destruct (fst (search_rules items base t f st)) as [e|[cat found]].
      * destruct IH as (q & -> & Hq & Hin). exists q.
        repeat split; [exact Hq | now apply list_elem_of_further].
      * destruct IH as [[-> Hin]|[-> ->]]; [left | right]; split; try reflexivity.
        now apply list_elem_of_further.
  - rewrite search_rules_bad by assumption. exists p.
    repeat split; [exact Hc | apply list_elem_of_here].
Qed.

(** Among the rules up to a hit, with every pattern before it compiling,
    the search stops at the first hit. *)
Lemma search_rules_first items base i k p r :
  items !! i = Some (k, p) ->
  re_compile p = Some r -> regex_search r base = true ->
  (forall m k' p', m < i -> items !! m = Some (k', p') -> is_Some (re_compile p')) ->
  exists n k0 p0 r0,
    n <= i /\ items !! n = Some (k0, p0) /\
    re_compile p0 = Some r0 /\ regex_search r0 base = true /\
    (forall m k' p' r', m < n -> items !! m = Some (k', p') ->
       re_compile p' = Some r' -> regex_search r' base = false) /\
    forall t f st, search_rules items base t f st = (inr (k0, true), st).
Proof.
  revert i. induction items as [|[k1 p1] items IH]; intros i Hi Hc Hs Hwf.
  - now rewrite lookup_nil in Hi.
  - destruct i as [|i].
    + injection Hi as -> ->. exists 0, k, p, r.
      repeat split; try assumption; [lia | intros; lia |].
      intros. now apply search_rules_hit with r.
    + destruct (Hwf 0 k1 p1) as [r1 Hc1]; [lia | reflexivity |].
      destruct (regex_search r1 base) eqn:Hs1.
      * exists 0, k1, p1, r1.
        repeat split; try assumption; [lia | intros; lia |].
        intros. now apply search_rules_hit with r1.
      * destruct (IH i Hi Hc Hs) as (n & k0 & p0 & r0 & Hn & Hl & Hc0 & Hs0 & Hlt & Hrun).
        { intros m k' p' Hm Hlm. apply (Hwf (S m) k' p'); [lia | exact Hlm]. }
        exists (S n), k0, p0, r0.
        repeat split; try assumption; [lia | |].
        -- intros [|m] k' p' r' Hm Hlm Hcm.
           ++ injection Hlm as <- <-. congruence.
           ++ apply (Hlt m k' p' r'); [lia | exact Hlm | exact Hcm].
        -- intros. rewrite (search_rules_miss _ _ r1) by assumption. apply Hrun.
Qed.

(** *** Exceptions *)

Lemma classification_error cfg base e :
  classification cfg base = inl e ->
  exists p, e = ReError p /\ re_compile p = None /\
            p ∈ (default [] (rules cfg)).*2.
Proof.
  unfold classification, classify. intros He.
  pose proof (search_rules_range (default [] (rules cfg)) base
                (default "_unsorted" (unsorted_folder_name cfg)) false empty_state) as Hr.
  now rewrite He in Hr.
Qed.

Lemma read_result_error z name e :
  read_result z name = inl e -> e = KeyError name \/ e = BadZipFile.
Proof.
  unfold read_result. destruct (getinfo z name) as [m|]; [| intros [= <-]; auto].
  destruct (crc_ok m); [discriminate | intros [= <-]; auto].
Qed.

(** A member that raises leaves the counters alone, and what it raises is
    caught by [except Exception]. *)
Lemma outcome_raised cfg mods z fi base st e st' :
  member_outcome cfg mods z fi base st (inl e, st') ->
  is_Exception e = true /\
  count_moved st' = count_moved st /\ count_unsorted st' = count_unsorted st.
Proof.
  inversion 1 as [e0 Hc|cat f e0 Hc Hd| | |cat f e0 Hc Hd Hx Hf Hr| |]; subst;
    cbn [count_moved count_unsorted set_files printed set_stdout];
    rewrite ?(proj1 (with_dir_counts _ _)), ?(proj2 (with_dir_counts _ _));
    repeat split; try reflexivity.
  - apply classification_error in Hc as (p & -> & _). reflexivity.
  - apply mkdir_error in Hd as [q ->]. reflexivity.
  - apply read_result_error in Hr as [-> | ->]; reflexivity.
Qed.

Lemma process_member_raised cfg mods z fi st e st' :
  process_member cfg mods z fi st = (inl e, st') ->
  is_Exception e = true /\
  count_moved st' = count_moved st /\ count_unsorted st' = count_unsorted st.
Proof.
  unfold process_member. destruct (ignored fi); [discriminate |].
  destruct (String.eqb _ _); [discriminate |].
  intros Hm. eapply outcome_raised. rewrite <- Hm. apply extract_member_outcome.
Qed.

Lemma scan_raised cfg mods z ms st e st' :
  scan_members cfg mods z ms st = (inl e, st') -> is_Exception e = true.
Proof.
  unfold scan_members. revert st. induction ms as [|fi ms IH]; intros st; [discriminate |].
  rewrite for_each_cons.
  destruct (process_member cfg mods z fi st) as [[e'|[]] s] eqn:Hm.
  - intros [= <- <-]. now apply process_member_raised in Hm.
  - apply IH.
Qed.

(** *** One archive *)

Lemma on_error_run z e s :
  is_Exception e = true -> on_error z e s = (inr tt, printed (error_line z e) s).
Proof. destruct e; try reflexivity. discriminate. Qed.

(** The relocation either goes through or raises an [OSError] and leaves
    every file where it was. *)
Lemma relocate_cases cfg z s :
  match relocate cfg z s with
  | (inl e, s') => is_Exception e = true /\ files s' = files s
  | (inr _, s') =>
      exists c dst, files s !! z = Some c /\
        files s' = <[dst := c]> (delete z (files s)) /\
        stdout s' = stdout s ++ [MsgFinished (basename z)]
  end.
Proof.
  unfold relocate. unfold bind at 1. rewrite mkdir_exist_ok_run.
  destruct (mkdir_exist_ok_fails (processed_dir_of cfg) s); [split; reflexivity |].
  set (s1 := with_leaf (processed_dir_of cfg) s).
  assert (Hf1 : files s1 = files s) by apply with_leaf_spec.
  assert (Ho1 : stdout s1 = stdout s) by apply with_leaf_spec.
  unfold bind at 1, move, bind at 1, get_state. rewrite Hf1.
  destruct (files s !! z) as [c|] eqn:Hz; [| split; [reflexivity | exact Hf1]].
  destruct (is_directory _ _).
  - destruct (_ || _); [split; [reflexivity | exact Hf1] |].
    unfold modify, print, modify. eexists c, _. cbn. rewrite Ho1. auto.
  - destruct (bool_decide _); [split; [reflexivity | exact Hf1] |].
    unfold modify, print, modify. eexists c, _. cbn. rewrite Ho1. auto.
Qed.

Lemma process_archive_run cfg mods z st :
  process_archive cfg mods z st
  = let st0 := printed (MsgProcessing (basename z)) st in
    match files st !! z with
    | Some (ZipArchive ms) =>
        match scan_members cfg mods ms ms st0 with
        | (inl e, s) => on_error z e s
        | (inr _, s) =>
            match relocate cfg z s with
            | (inl e, s') => on_error z e s'
            | r => r
            end
        end
    | Some (Raw _) => (inr tt, printed (MsgCorrupt (basename z)) st0)
    | None => (inr tt, printed (MsgUnexpected (basename z) (OSError z)) st0)
    end.
Proof.
  unfold process_archive. unfold bind at 1, print at 1, modify at 1.
  unfold try_except. unfold bind at 1, zip_open, bind at 1, get_state.
  cbn [files printed set_stdout].
  destruct (files st !! z) as [[b|ms]|]; try reflexivity.
  unfold ret, bind.
  destruct (scan_members cfg mods ms ms _) as [[e|[]] s]; [reflexivity |].
  destruct (relocate cfg z s) as [[e|[]] s']; reflexivity.
Qed.

(** No exception leaves [process_archive]: the loop over the archives
    goes on to the next one. *)
Lemma process_archive_returns cfg mods z st :
  fst (process_archive cfg mods z st) = inr tt.
Proof.
  rewrite process_archive_run. cbn zeta.
  destruct (files st !! z) as [[b|ms]|]; try reflexivity.
  destruct (scan_members cfg mods ms ms _) as [[e|[]] s] eqn:Hs.
  - apply scan_raised in Hs. now rewrite on_error_run.
  - pose proof (relocate_cases cfg z s) as Hr.
    destruct (relocate cfg z s) as [[e|[]] s']; [| reflexivity].
    destruct Hr as [He _]. now rewrite on_error_run.
Qed.

(** An exception in the middle of the member loop ends the archive: the
    state is the one the failing member left, plus the line of the error. *)
Lemma process_archive_member_raises cfg mods z before fi after st st_b e st_f :
  files st !! z = Some (ZipArchive (before ++ fi :: after)) ->
  scan_members cfg mods (before ++ fi :: after) before
    (printed (MsgProcessing (basename z)) st) = (inr tt, st_b) ->
  process_member cfg mods (before ++ fi :: after) fi st_b = (inl e, st_f) ->
  process_archive cfg mods z st = (inr tt, printed (error_line z e) st_f).
Proof.
  intros Hz Hb Hm. rewrite process_archive_run, Hz. cbn zeta.
  unfold scan_members in *. rewrite for_each_app, Hb, for_each_cons, Hm.
  apply on_error_run. now apply process_member_raised in Hm.
Qed.

(** *** Start-up *)

(** Lines 11-25, case by case. *)
Lemma load_config_run st :
  load_config st
  = match files st !! CONFIG_FILE with
    | Some (Raw text) =>
        match json_loads text with
        | Some cfg => (inr (Object cfg), st)
        | None =>
            match json_fails text with
            | Some JSONDecodeError => (inl SystemExit, printed MsgConfigInvalid st)
            | Some e => (inl e, st)
            | None => (inr NotAnObject, st)
            end
        end
    | Some (ZipArchive ms) =>
        match json_of_archive ms with
        | JSONDecodeError => (inl SystemExit, printed MsgConfigInvalid st)
        | e => (inl e, st)
        end
    | None =>
        if is_directory CONFIG_FILE st then (inl (OSError CONFIG_FILE), st)
        else (inl SystemExit, printed MsgConfigMissing st)
    end.
Proof.
  unfold load_config.
  unfold bind at 1, path_exists, bind at 1, get_state, ret, exists_in.
  destruct (files st !! CONFIG_FILE) as [[text|ms]|] eqn:Hf.
  - rewrite bool_decide_true by eauto. cbn [orb negb].
    unfold bind at 1. rewrite Hf. unfold try_except, json_load.
    destruct (json_loads text); [reflexivity |].
    destruct (json_fails text) as [[]|]; reflexivity.
  - rewrite bool_decide_true by eauto. cbn [orb negb].
    unfold bind at 1. rewrite Hf. unfold try_except, json_load.
    destruct (json_of_archive ms); reflexivity.
  - rewrite bool_decide_false by (intros [? ?]; discriminate). cbn [orb].
    destruct (is_directory CONFIG_FILE st); cbn [negb]; [| reflexivity].
    unfold bind at 1. now rewrite Hf.
Qed.

Lemma json_load_pure c st : json_load c st = (fst (json_load c st), st).
Proof.
  destruct c as [text|ms]; unfold json_load; [| reflexivity].
  destruct (json_loads text); [reflexivity |].
  now destruct (json_fails text).
Qed.

(** Lines 11-25, in terms of what [json.load] does. *)
Lemma load_config_cases st :
  load_config st
  = match files st !! CONFIG_FILE with
    | Some c =>
        match fst (json_load c st) with
        | inl JSONDecodeError => (inl SystemExit, printed MsgConfigInvalid st)
        | r => (r, st)
        end
    | None =>
        if is_directory CONFIG_FILE st then (inl (OSError CONFIG_FILE), st)
        else (inl SystemExit, printed MsgConfigMissing st)
    end.
Proof.
  unfold load_config.
  unfold bind at 1, path_exists, bind at 1, get_state, ret, exists_in.
  destruct (files st !! CONFIG_FILE) as [c|] eqn:Hf.
  - rewrite bool_decide_true by eauto. cbn [orb negb].
    unfold bind at 1. rewrite Hf. unfold try_except. rewrite json_load_pure.
    destruct (fst (json_load c st)) as [[]|doc]; reflexivity.
  - rewrite bool_decide_false by (intros [? ?]; discriminate). cbn [orb].
    destruct (is_directory CONFIG_FILE st); cbn [negb]; [| reflexivity].
    unfold bind at 1. now rewrite Hf.
Qed.

(** Lines 27-41, case by case. *)
Lemma get_sims_mods_path_run home (cfg : config) st :
  get_sims_mods_path home cfg st
  = let override := default "" (sims_mods_path_override cfg) in
    let path :=
      if negb (String.eqb override "") then normpath override
      else joinpath (joinpath (joinpath (joinpath home "Documents")
                       "Electronic Arts") "The Sims 4") "Mods" in
    if exists_in path st then (inr path, st)
    else (inl SystemExit, printed MsgCheckConfig (printed (MsgNoSimsDir path) st)).
Proof.
  cbv zeta. unfold get_sims_mods_path.
  unfold bind at 1, the_object, ret at 1.
  unfold bind at 1, path_exists, bind at 1, get_state, ret.
  now destruct (exists_in _ st).
Qed.

(** Lines 130-135, step by step. *)
Lemma main_run home zip_files st :
  main home zip_files st
  = match load_config (printed MsgStarting st) with
    | (inl e, s) => (inl e, s)
    | (inr doc, s) =>
        match get_sims_mods_path home doc s with
        | (inl e, s') => (inl e, s')
        | (inr p, s') => process_zips doc p zip_files (printed (MsgTarget p) s')
        end
    end.
Proof.
  unfold main. unfold bind at 1, print at 1, modify at 1. unfold bind at 1.
  destruct (load_config _) as [[e|doc] s]; [reflexivity |].
  unfold bind at 1.
  destruct (get_sims_mods_path home doc s) as [[e|p] s']; reflexivity.
Qed.

(** *** What one member may touch *)



End Facts.

(** ** The claims *)

(** C1.  When two rules hit a file name, and every pattern placed before
    both of them compiles, the search returns the category of the first rule
    of the rule set that hits, with [found_match] true and the state
    untouched.  For the rules hair:"hai", accessories:"air" and the name
    long_hair_01.package the category is hair. *)
Theorem first_matching_rule_wins :
  (forall (L : PyLib) (cfg : config) (base : string) (i j : nat)
          (ki pi kj pj : string) (ri rj : regex),
     i <> j ->
     default [] (rules cfg) !! i = Some (ki, pi) ->
     re_compile pi = Some ri -> regex_search ri base = true ->
     default [] (rules cfg) !! j = Some (kj, pj) ->
     re_compile pj = Some rj -> regex_search rj base = true ->
     (forall m k p, m < i -> m < j ->
        default [] (rules cfg) !! m = Some (k, p) -> is_Some (re_compile p)) ->
     exists n k p r,
       n <= i /\ n <= j /\
       default [] (rules cfg) !! n = Some (k, p) /\
       re_compile p = Some r /\ regex_search r base = true /\
       (forall m k' p' r', m < n ->
          default [] (rules cfg) !! m = Some (k', p') ->
          re_compile p' = Some r' -> regex_search r' base = false) /\
       forall st, classify cfg base st = (inr (k, true), st)) /\
  (forall st,
     @classify Fragment.lib cfg_tie "long_hair_01.package" st
     = (inr ("hair", true), st)).
Proof.
  split.
  - intros L cfg base i j ki pi kj pj ri rj Hij Hi Hci Hsi Hj Hcj Hsj Hwf.
    destruct (Nat.lt_total i j) as [Hlt | [Heq | Hlt]]; [| contradiction |].
    + destruct (search_rules_first _ base i ki pi ri Hi Hci Hsi)
        as (n & k & p & r & Hn & Hl & Hc & Hs & Hmin & Hrun).
      { intros m k p Hm. apply Hwf; lia. }
      exists n, k, p, r. repeat split; try assumption; [lia |].
      intros st. apply Hrun.
    + destruct (search_rules_first _ base j kj pj rj Hj Hcj Hsj)
        as (n & k & p & r & Hn & Hl & Hc & Hs & Hmin & Hrun).
      { intros m k p Hm. apply Hwf; lia. }
      exists n, k, p, r. repeat split; try assumption; [lia |].
      intros st. apply Hrun.
  - intros st. unfold classify. cbn [rules cfg_tie default].
    now apply (@search_rules_hit Fragment.lib) with
      (r := default Fragment.RxEmpty (Fragment.compile "hai")).
Qed.

Lemma first_matching_rule_wins_witness :
  @re_compile Fragment.lib "hai" <> None /\
  @re_compile Fragment.lib "air" <> None /\
  exists n k p r,
    n <= 0 /\ n <= 1 /\
    default [] (rules cfg_tie) !! n = Some (k, p) /\
    @re_compile Fragment.lib p = Some r /\
    @regex_search Fragment.lib r "long_hair_01.package" = true /\
    (forall m k' p' r', m < n ->
       default [] (rules cfg_tie) !! m = Some (k', p') ->
       @re_compile Fragment.lib p' = Some r' ->
       @regex_search Fragment.lib r' "long_hair_01.package" = false) /\
    forall st, @classify Fragment.lib cfg_tie "long_hair_01.package" st
               = (inr (k, true), st).
Proof.
  split; [discriminate |]. split; [discriminate |].
  apply (proj1 first_matching_rule_wins Fragment.lib cfg_tie
           "long_hair_01.package" 0 1 "hair" "hai" "accessories" "air"
           (default Fragment.RxEmpty (Fragment.compile "hai"))
           (default Fragment.RxEmpty (Fragment.compile "air"))).
  - lia.
  - reflexivity.
  - reflexivity.
  - vm_compute. reflexivity.
  - reflexivity.
  - reflexivity.
  - vm_compute. reflexivity.
  - intros m k p Hm. lia.
Defined.

(** C6.  The search through the rules is a function of the file name and
    the rule set alone: run in any two states it gives the same result and
    leaves the state as it was.  A returned category is a key of the rule
    set when [found_match] is true and the fallback name when it is false;
    the only other result is the [re.error] of a pattern of the rule set. *)
Theorem classification_is_pure (L : PyLib) (cfg : config) (base : string)
    (st st' : state) :
  classify cfg base st = (fst (classify cfg base st'), st) /\
  match fst (classify cfg base st) with
  | inr (cat, true) => cat ∈ (default [] (rules cfg)).*1
  | inr (cat, false) => cat = default "_unsorted" (unsorted_folder_name cfg)
  | inl e => exists p, e = ReError p /\ re_compile p = None /\
                       p ∈ (default [] (rules cfg)).*2
  end.
Proof.
  split; [apply search_rules_pure |].
  pose proof (search_rules_range (default [] (rules cfg)) base
                (default "_unsorted" (unsorted_folder_name cfg)) false st) as Hr.
  unfold classify.
  destruct (fst (search_rules _ _ _ _ st)) as [e|[cat [|]]]; [exact Hr | |].
  - destruct Hr as [[_ Hin]|[Hf _]]; [exact Hin | discriminate].
  - destruct Hr as [[Hf _]|[_ Hc]]; [discriminate | exact Hc].
Qed.

(** C7.  A member that is a directory entry, or whose lower-cased name does
    not end in .package, changes nothing: whatever the rules are, the file
    system, the output and the two counters stay as they were, and the
    member loop runs as if the member were not in the list. *)
Theorem untracked_member_changes_nothing (L : PyLib) (cfg : config)
    (mods : string) (z : list ZipInfo) (fi : ZipInfo) (st : state) :
  is_dir fi = true \/ endswith (lower (filename fi)) ".package" = false ->
  process_member cfg mods z fi st = (inr tt, st) /\
  forall before after,
    scan_members cfg mods z (before ++ fi :: after) st
    = scan_members cfg mods z (before ++ after) st.
Proof.
  intros Hfi.
  assert (Hi : ignored fi = true).
  { unfold ignored. destruct Hfi as [-> | ->]; [apply orb_true_r | reflexivity]. }
  split; [now apply process_member_ignored |].
  intros before after. unfold scan_members. rewrite !for_each_app.
  destruct (for_each before _ st) as [[e|[]] s]; [reflexivity |].
  now rewrite for_each_cons, process_member_ignored.
Qed.

Lemma untracked_member_changes_nothing_witness :
  endswith (lower "readme.txt") ".package" = false /\
  @process_member Fragment.lib cfg_pack "/Mods" pack1
    (mkZipInfo "readme.txt" false "r" true) st_mods = (inr tt, st_mods).
Proof.
  split; [reflexivity |].
  apply (untracked_member_changes_nothing Fragment.lib cfg_pack "/Mods" pack1
           (mkZipInfo "readme.txt" false "r" true) st_mods).
  right. reflexivity.
Defined.

(** C9.  A member whose base name is empty is passed over before the
    rules are searched: no directory is made, nothing is written or printed,
    no counter moves.  Such a name does not end in .package, so the check
    of the extension already passes it over. *)
Theorem empty_base_name_is_passed_over (L : PyLib) (cfg : config)
    (mods : string) (z : list ZipInfo) (fi : ZipInfo) (st : state) :
  basename (filename fi) = "" ->
  process_member cfg mods z fi st = (inr tt, st) /\ ignored fi = true.
Proof.
  intros Hb. unfold process_member. rewrite Hb.
  destruct (ignored fi) eqn:Hi; [auto |].
  exfalso. unfold ignored in Hi. apply orb_false_iff in Hi as [Hi _].
  now apply negb_false_iff, tracked_basename in Hi.
Qed.

Lemma empty_base_name_is_passed_over_witness :
  basename "folder/" = "" /\
  @process_member Fragment.lib cfg_pack "/Mods" pack1
    (mkZipInfo "folder/" false "" true) st_mods = (inr tt, st_mods).
Proof.
  split; [reflexivity |].
  apply (empty_base_name_is_passed_over Fragment.lib cfg_pack "/Mods" pack1
           (mkZipInfo "folder/" false "" true) st_mods).
  reflexivity.
Defined.

(** C10.  The check of the extension ignores case: a member that is not a
    directory entry and whose name ends in any casing of .package is
    eligible, and is handled by the same lines 76-112 as every tracked
    member, under its base name as spelled. *)
Theorem extension_check_ignores_case (L : PyLib) (cfg : config)
    (mods : string) (z : list ZipInfo) (fi : ZipInfo) (stem ext : string)
    (st : state) :
  filename fi = stem +:+ ext -> lower ext = ".package" -> is_dir fi = false ->
  eligible fi = true /\
  process_member cfg mods z fi st
  = extract_member cfg mods z fi (basename (filename fi)) st.
Proof.
  intros Hn He Hd.
  assert (Hel : eligible fi = true).
  { unfold eligible, ignored. now rewrite Hn, (tracked_suffix stem ext He), Hd. }
  split; [exact Hel | now apply process_member_eligible].
Qed.

Lemma extension_check_ignores_case_witness :
  lower ".PACKAGE" = ".package" /\
  eligible (mkZipInfo "FOO.PACKAGE" false "foo" true) = true /\
  @process_member Fragment.lib cfg_pack "/Mods" []
    (mkZipInfo "FOO.PACKAGE" false "foo" true) st_mods
  = @extract_member Fragment.lib cfg_pack "/Mods" []
      (mkZipInfo "FOO.PACKAGE" false "foo" true) "FOO.PACKAGE" st_mods.
Proof.
  split; [reflexivity |].
  apply (extension_check_ignores_case Fragment.lib cfg_pack "/Mods" []
           (mkZipInfo "FOO.PACKAGE" false "foo" true) "FOO" ".PACKAGE" st_mods);
    reflexivity.
Defined.





(** C3.  No exception leaves the handling of an archive, so the loop goes
    on to the next one.  An archive that cannot be opened is reported and
    the file system is left as it was.  And if the archive is no longer in
    its place afterwards, then its member loop ran to the end without an
    exception, every eligible member printed its skip or extract line and
    has its destination in place, and the relocation started from the state
    the member loop left, its line being the last one printed. *)
Theorem archive_moves_after_its_members (L : PyLib) (cfg : config)
    (mods : string) (z : string) (st : state) :
  fst (process_archive cfg mods z st) = inr tt /\
  (forall rest,
     for_each (z :: rest) (process_archive cfg mods) st
     = for_each rest (process_archive cfg mods) (snd (process_archive cfg mods z st))) /\
  ((forall ms, files st !! z <> Some (ZipArchive ms)) ->
     exists e,
       (e = BadZipFile \/ e = OSError z) /\
       snd (process_archive cfg mods z st)
       = printed (error_line z e) (printed (MsgProcessing (basename z)) st)) /\
  (files (snd (process_archive cfg mods z st)) !! z <> files st !! z ->
     exists ms st_s evs,
       files st !! z = Some (ZipArchive ms) /\
       scan_members cfg mods ms ms (printed (MsgProcessing (basename z)) st)
       = (inr tt, st_s) /\
       Forall (fun fi => eligible fi = true -> settled cfg mods fi st_s) ms /\
       Forall2 (member_event cfg) (filter (fun fi => eligible fi = true) ms) evs /\
       stdout st_s = stdout st ++ MsgProcessing (basename z) :: evs /\
       relocate cfg z st_s = (inr tt, snd (process_archive cfg mods z st)) /\
       stdout (snd (process_archive cfg mods z st))
       = stdout st_s ++ [MsgFinished (basename z)]).
Proof.
  pose proof (process_archive_returns cfg mods z st) as Hret.
  split; [exact Hret |]. split; [| split].
  - intros rest. rewrite for_each_cons.
    destruct (process_archive cfg mods z st) as [[e|[]] s]; [discriminate | reflexivity].
  - intros Hno. rewrite process_archive_run. cbn zeta.
    destruct (files st !! z) as [[b|ms]|] eqn:Hz.
    + exists BadZipFile. auto.
    + now destruct (Hno ms).
    + exists (OSError z). auto.
  - rewrite process_archive_run. cbn zeta.
    destruct (files st !! z) as [[b|ms]|] eqn:Hz;
      [intros Hne; now destruct Hne | | intros Hne; now destruct Hne].
    pose proof (scan_extends cfg mods ms ms (printed (MsgProcessing (basename z)) st)) as Hext.
    destruct (scan_members cfg mods ms ms _) as [[e|[]] s] eqn:Hs; cbn [snd] in Hext.
    + intros Hne. exfalso. apply Hne.
      rewrite on_error_run by (now apply scan_raised in Hs).
      cbn [snd files printed set_stdout].
      destruct Hext as (_ & Hf & _). eapply lookup_weaken; eassumption.
    + pose proof (relocate_cases cfg z s) as Hr.
      destruct (relocate cfg z s) as [[e|[]] s'] eqn:Hrel.
      * intros Hne. exfalso. apply Hne. destruct Hr as [He Hf].
        rewrite on_error_run by exact He. cbn [snd files printed set_stdout].
        rewrite Hf. destruct Hext as (_ & Hf' & _). eapply lookup_weaken; eassumption.
      * intros _. destruct Hr as (c & dst & _ & _ & Hout).
        destruct (scan_ok _ _ _ _ _ _ Hs) as (Hall & evs & Hev & Hout').
        exists ms, s, evs. cbn [snd].
        repeat split; try assumption; try reflexivity.
        rewrite Hout'. cbn [stdout printed set_stdout]. now rewrite <- app_assoc.
Qed.

Lemma archive_moves_after_its_members_witness :
  files (snd (@process_archive Fragment.lib cfg_pack "/Mods"
                "PUT_ZIPS_HERE/pack1.zip" st_pack))
    !! "PUT_ZIPS_HERE/pack1.zip" = None /\
  exists st_s,
    @scan_members Fragment.lib cfg_pack "/Mods" pack1 pack1
      (printed (MsgProcessing "pack1.zip") st_pack) = (inr tt, st_s) /\
    relocate cfg_pack "PUT_ZIPS_HERE/pack1.zip" st_s
    = (inr tt, snd (@process_archive Fragment.lib cfg_pack "/Mods"
                      "PUT_ZIPS_HERE/pack1.zip" st_pack)).
Proof.
  split; [vm_compute; reflexivity |].
  destruct (proj2 (proj2 (proj2
              (archive_moves_after_its_members Fragment.lib cfg_pack "/Mods"
                 "PUT_ZIPS_HERE/pack1.zip" st_pack))))
    as (ms & st_s & evs & Hz & Hs & _ & _ & _ & Hr & _).
  - vm_compute. discriminate.
  - exists st_s. injection Hz as <-. split; [exact Hs | exact Hr].
Defined.

(** A write that the system refuses raises [OSError] for the member; the
    counters stay and only the destination can differ afterwards. *)
Lemma process_member_write_fails (L : PyLib) cfg mods z fi st cat found fault data :
  eligible fi = true ->
  classification cfg (basename (filename fi)) = inr (cat, found) ->
  mkdir_fails (joinpath mods cat) st = false ->
  exists_in (dest_of mods cat (basename (filename fi)))
            (with_dir (joinpath mods cat) st) = false ->
  faults st !! dest_of mods cat (basename (filename fi)) = Some fault ->
  (fault <> Denied -> read_result z (filename fi) = inr data) ->
  exists st_f,
    process_member cfg mods z fi st
    = (inl (OSError (dest_of mods cat (basename (filename fi)))), st_f) /\
    count_moved st_f = count_moved st /\ count_unsorted st_f = count_unsorted st.
Proof.
  intros He Hc Hd Hx Hf Hr.
  rewrite (process_member_eligible _ _ _ _ _ He).
  pose proof (extract_member_outcome cfg mods z fi (basename (filename fi)) st) as Ho.
  destruct (extract_member cfg mods z fi (basename (filename fi)) st) as [r st_f].
  exists st_f. pose proof (proj1 (mkdir_fails_false _ _) Hd) as Hd0.
  inversion Ho as [e Hc'|cat' f e Hc' Hd'|cat' f Hc' Hd' Hx'|cat' f Hc' Hd' Hx' Hf'
                   |cat' f e Hc' Hd' Hx' Hf' Hr'|cat' f n data' Hc' Hd' Hx' Hf' Hr'
                   |cat' f data' Hc' Hd' Hx' Hf' Hr']; subst;
    rewrite Hc in Hc'; try discriminate; injection Hc' as <- <-; try congruence.
  - split; [reflexivity |]. cbn. apply with_dir_counts.
  - exfalso. rewrite Hr in Hr' by congruence. discriminate.
  - split; [reflexivity |]. cbn. apply with_dir_counts.
Qed.

(** C4, as the code has it.  When the write of an eligible member fails
    with an I/O error (the system refuses the new file, or fails while the
    bytes read from the archive are written), the error is reported once,
    for the archive; the member counts as neither sorted nor unsorted; the
    state after the archive is the one the failing member left plus that
    line, so the members after it in the same archive are not handled and
    the archive is not relocated; the loop goes on to the next archive. *)
Theorem write_failure_ends_the_archive (L : PyLib) (cfg : config)
    (mods z : string) (before : list ZipInfo) (fi : ZipInfo)
    (after : list ZipInfo) (st st_b : state) (cat : string) (found : bool)
    (fault : io_fault) (data : string) :
  files st !! z = Some (ZipArchive (before ++ fi :: after)) ->
  scan_members cfg mods (before ++ fi :: after) before
    (printed (MsgProcessing (basename z)) st) = (inr tt, st_b) ->
  eligible fi = true ->
  classification cfg (basename (filename fi)) = inr (cat, found) ->
  mkdir_fails (joinpath mods cat) st_b = false ->
  exists_in (dest_of mods cat (basename (filename fi)))
            (with_dir (joinpath mods cat) st_b) = false ->
  faults st_b !! dest_of mods cat (basename (filename fi)) = Some fault ->
  (fault <> Denied -> read_result (before ++ fi :: after) (filename fi) = inr data) ->
  exists st_f,
    process_member cfg mods (before ++ fi :: after) fi st_b
    = (inl (OSError (dest_of mods cat (basename (filename fi)))), st_f) /\
    count_moved st_f = count_moved st_b /\
    count_unsorted st_f = count_unsorted st_b /\
    process_archive cfg mods z st
    = (inr tt,
       printed (MsgUnexpected (basename z)
                  (OSError (dest_of mods cat (basename (filename fi))))) st_f) /\
    files st_f !! z = files st !! z /\
    forall rest,
      for_each (z :: rest) (process_archive cfg mods) st
      = for_each rest (process_archive cfg mods)
          (printed (MsgUnexpected (basename z)
                      (OSError (dest_of mods cat (basename (filename fi))))) st_f).
Proof.
  intros Hz Hb He Hc Hd Hx Hf Hr.
  destruct (process_member_write_fails L cfg mods _ fi st_b cat found fault data
              He Hc Hd Hx Hf Hr) as (st_f & Hm & Hcm & Hcu).
  exists st_f. split; [exact Hm |]. split; [exact Hcm |]. split; [exact Hcu |].
  pose proof (process_archive_member_raises _ _ _ _ _ _ _ _ _ _ Hz Hb Hm) as Hrun.
  split; [exact Hrun |]. split.
  - pose proof (scan_extends cfg mods (before ++ fi :: after) before
                  (printed (MsgProcessing (basename z)) st)) as H1.
    rewrite Hb in H1. cbn [snd] in H1.
    pose proof (process_member_extends cfg mods (before ++ fi :: after) fi st_b) as H2.
    rewrite Hm in H2. cbn [snd] in H2.
    destruct H1 as (_ & H1 & _). destruct H2 as (_ & H2 & _).
    rewrite Hz. eapply lookup_weaken; [| exact H2].
    eapply lookup_weaken; [| exact H1]. exact Hz.
  - intros rest. now rewrite for_each_cons, Hrun.
Qed.

Lemma write_failure_ends_the_archive_witness :
  faults st_denied !! "/Mods/_unsorted/a.package" = Some Denied /\
  exists st_f,
    @process_archive Fragment.lib cfg_pack "/Mods" "PUT_ZIPS_HERE/two.zip" st_denied
    = (inr tt,
       printed (MsgUnexpected "two.zip" (OSError "/Mods/_unsorted/a.package")) st_f) /\
    count_moved st_f = 0 /\ count_unsorted st_f = 0 /\
    files st_f !! "PUT_ZIPS_HERE/two.zip" = Some (ZipArchive two_members).
Proof.
  split; [reflexivity |].
  destruct (write_failure_ends_the_archive Fragment.lib cfg_pack "/Mods"
              "PUT_ZIPS_HERE/two.zip" []
              (mkZipInfo "a.package" false "aaa" true)
              [mkZipInfo "b.package" false "bbb" true]
              st_denied (printed (MsgProcessing "two.zip") st_denied)
              "_unsorted" false Denied "aaa")
    as (st_f & _ & Hcm & Hcu & Hrun & Hz & _);
    [reflexivity | reflexivity | reflexivity | vm_compute; reflexivity
    | vm_compute; reflexivity | vm_compute; reflexivity | reflexivity
    | intros _; reflexivity |].
  exists st_f. repeat split; [exact Hrun | exact Hcm | exact Hcu | exact Hz].
Defined.

(** C4 as stated fails.  The system refuses the destination of a.package;
    the run reports the error for the archive and ends it there: b.package,
    an eligible member after it whose destination is free, is neither
    extracted nor reported, and the archive is not relocated. *)
Lemma sibling_after_failed_write_is_not_handled :
  let b := mkZipInfo "b.package" false "bbb" true in
  let r := @process_zips Fragment.lib cfg_pack "/Mods" ["PUT_ZIPS_HERE/two.zip"] st_denied in
  In b two_members /\ eligible b = true /\
  faults st_denied !! "/Mods/_unsorted/b.package" = None /\
  fst r = inr tt /\
  stdout (snd r)
  = [ MsgFound 1; MsgProcessing "two.zip"; MsgExtract "a.package" "_unsorted";
      MsgUnexpected "two.zip" (OSError "/Mods/_unsorted/a.package");
      MsgRule; MsgDone 0 0 "_unsorted"; MsgRule ] /\
  exists_in "/Mods/_unsorted/b.package" (snd r) = false /\
  files (snd r) !! "PUT_ZIPS_HERE/two.zip" = Some (ZipArchive two_members).
Proof.
  cbv zeta. split; [right; left; reflexivity |].
  repeat split; vm_compute; reflexivity.
Qed.

(** C5, as the code has it.  Loading the configuration compiles no
    pattern: [load_config] returns the decoded document as it is, whatever
    its patterns.  A pattern that does not compile raises [re.error] when
    the search for a file name first reaches it, every earlier rule having
    missed.  Raised for an eligible member, the error is reported for the
    archive: the files extracted from the members before it stay, no file
    is lost, the members after it are not handled and the loop goes on to
    the next archive. *)
Theorem malformed_pattern_fails_at_first_use (L : PyLib) (cfg : config) :
  (forall text st,
     files st !! CONFIG_FILE = Some (Raw text) -> json_loads text = Some cfg ->
     load_config st = (inr (Object cfg), st)) /\
  (forall pre k p post base st,
     default [] (rules cfg) = pre ++ (k, p) :: post ->
     re_compile p = None ->
     (forall k' p', (k', p') ∈ pre ->
        exists r, re_compile p' = Some r /\ regex_search r base = false) ->
     classify cfg base st = (inl (ReError p), st)) /\
  (forall mods z before fi after st st_b p,
     files st !! z = Some (ZipArchive (before ++ fi :: after)) ->
     scan_members cfg mods (before ++ fi :: after) before
       (printed (MsgProcessing (basename z)) st) = (inr tt, st_b) ->
     eligible fi = true ->
     classification cfg (basename (filename fi)) = inl (ReError p) ->
     process_archive cfg mods z st
     = (inr tt, printed (MsgUnexpected (basename z) (ReError p)) st_b) /\
     files st ⊆ files st_b /\
     forall rest,
       for_each (z :: rest) (process_archive cfg mods) st
       = for_each rest (process_archive cfg mods)
           (printed (MsgUnexpected (basename z) (ReError p)) st_b)).
Proof.
  split; [| split].
  - intros text st Hf Hj. now rewrite load_config_run, Hf, Hj.
  - intros pre k p post base st Hr Hp Hpre. unfold classify. rewrite Hr.
    rewrite search_rules_skip by exact Hpre. now apply search_rules_bad.
  - intros mods z before fi after st st_b p Hz Hb He Hc.
    assert (Hm : process_member cfg mods (before ++ fi :: after) fi st_b
                 = (inl (ReError p), st_b)).
    { rewrite (process_member_eligible _ _ _ _ _ He).
      unfold extract_member, bind. now rewrite classify_pure, Hc. }
    pose proof (process_archive_member_raises _ _ _ _ _ _ _ _ _ _ Hz Hb Hm) as Hrun.
    split; [exact Hrun |]. split.
    + pose proof (scan_extends cfg mods (before ++ fi :: after) before
                    (printed (MsgProcessing (basename z)) st)) as H1.
      rewrite Hb in H1. now destruct H1 as (_ & H1 & _).
    + intros rest. now rewrite for_each_cons, Hrun.
Qed.

Lemma malformed_pattern_fails_at_first_use_witness :
  @re_compile Fragment.lib "(" = None /\
  @load_config Fragment.lib st_broken = (inr (Object cfg_broken), st_broken) /\
  @classify Fragment.lib cfg_broken "Shoe.package" st_broken
  = (inl (ReError "("), st_broken).
Proof.
  split; [reflexivity |].
  destruct (malformed_pattern_fails_at_first_use Fragment.lib cfg_broken)
    as (Hload & Hsearch & _).
  split.
  - apply (Hload Fragment.doc_broken); reflexivity.
  - apply (Hsearch [("hair", "hair")] "broken" "(" []); [reflexivity | reflexivity |].
    intros k' p' Hin. apply list_elem_of_singleton in Hin. injection Hin as -> ->.
    exists (default Fragment.RxEmpty (Fragment.compile "hair")).
    split; [reflexivity | vm_compute; reflexivity].
Defined.

(** C5 as stated fails.  With a rule set whose second pattern is "(" the
    configuration loads without an error and the run starts; RedHair.package
    is extracted through the first rule; the pattern fails only when
    Shoe.package, which the first rule misses, reaches it. *)
Lemma malformed_pattern_is_met_at_the_second_member :
  let r := @main Fragment.lib "/home/u" ["PUT_ZIPS_HERE/pack.zip"] st_broken in
  @re_compile Fragment.lib "(" = None /\
  fst (@load_config Fragment.lib st_broken) = inr (Object cfg_broken) /\
  fst r = inr tt /\
  stdout (snd r)
  = [ MsgStarting; MsgTarget sims_mods; MsgFound 1; MsgProcessing "pack.zip";
      MsgExtract "RedHair.package" "hair"; MsgUnexpected "pack.zip" (ReError "(");
      MsgRule; MsgDone 1 0 "_unsorted"; MsgRule ] /\
  files (snd r) !! joinpath (joinpath sims_mods "hair") "RedHair.package"
  = Some (Raw "red").
Proof.
  cbv zeta. repeat split; vm_compute; reflexivity.
Qed.

(** The end-to-end scenario: three members sorted, the text file and the
    directory entry left out, the archive relocated, two files counted as
    sorted and one as unsorted. *)
Example end_to_end_scenario :
  let r := @process_zips Fragment.lib cfg_pack "/Mods" ["PUT_ZIPS_HERE/pack1.zip"] st_pack in
  fst r = inr tt /\
  files (snd r)
  = <["/Mods/hair/RedHair.package" := Raw "red"]>
      (<["/Mods/eyes/GreenEye.package" := Raw "green"]>
         (<["/Mods/_unsorted/Shoe.package" := Raw "shoe"]>
            (<["PUT_ZIPS_HERE/processed_archive/pack1.zip" := ZipArchive pack1]> ∅))) /\
  stdout (snd r)
  = [ MsgFound 1; MsgProcessing "pack1.zip"; MsgExtract "RedHair.package" "hair";
      MsgExtract "GreenEye.package" "eyes"; MsgExtract "Shoe.package" "_unsorted";
      MsgFinished "pack1.zip"; MsgRule; MsgDone 2 1 "_unsorted"; MsgRule ].
Proof.
  cbv zeta. repeat split; vm_compute; reflexivity.
Qed.

(** The damaged archive is reported and stays; the sound one after it is
    processed. *)
Example damaged_archive_scenario :
  let r := @process_zips Fragment.lib cfg_pack "/Mods"
             ["PUT_ZIPS_HERE/bad.zip"; "PUT_ZIPS_HERE/pack1.zip"] st_damaged in
  fst r = inr tt /\
  files (snd r) !! "PUT_ZIPS_HERE/bad.zip" = Some (Raw "not a zip") /\
  files (snd r) !! "PUT_ZIPS_HERE/processed_archive/pack1.zip" = Some (ZipArchive pack1) /\
  stdout (snd r)
  = [ MsgFound 2; MsgProcessing "bad.zip"; MsgCorrupt "bad.zip";
      MsgProcessing "pack1.zip"; MsgExtract "RedHair.package" "hair";
      MsgExtract "GreenEye.package" "eyes"; MsgExtract "Shoe.package" "_unsorted";
      MsgFinished "pack1.zip"; MsgRule; MsgDone 2 1 "_unsorted"; MsgRule ].
Proof.
  cbv zeta. repeat split; vm_compute; reflexivity.
Qed.

(** A second run over a copy of the archive put back in the source folder:
    the three members are reported as skipped, the counters stay at zero and
    the file system ends as the first run left it. *)
Example second_run_scenario :
  let zip := "PUT_ZIPS_HERE/pack1.zip" in
  let st1 := snd (@process_zips Fragment.lib cfg_pack "/Mods" [zip] st_pack) in
  let fed := set_stdout [] (set_files (<[zip := ZipArchive pack1]> (files st1)) st1) in
  let r := @process_zips Fragment.lib cfg_pack "/Mods" [zip] fed in
  fst r = inr tt /\
  files (snd r) = files st1 /\
  stdout (snd r)
  = [ MsgFound 1; MsgProcessing "pack1.zip"; MsgSkip "hair" "RedHair.package";
      MsgSkip "eyes" "GreenEye.package"; MsgSkip "_unsorted" "Shoe.package";
      MsgFinished "pack1.zip"; MsgRule; MsgDone 0 0 "_unsorted"; MsgRule ].
Proof.
  cbv zeta. repeat split; vm_compute; reflexivity.
Qed.

(** Paths as pathlib joins them: an empty or dotted operand adds nothing,
    separators are not doubled, and an operand with a root replaces the
    left side. *)
Example joinpath_examples :
  joinpath "/Mods" "hair" = "/Mods/hair" /\
  joinpath "/Mods" "" = "/Mods" /\
  joinpath "/Mods" "." = "/Mods" /\
  joinpath "/Mods" "CAS//Hair/" = "/Mods/CAS/Hair" /\
  joinpath "/Mods" "/tmp/evil" = "/tmp/evil" /\
  joinpath "/Mods" ".." = "/Mods/.." /\
  joinpath "." "PUT_ZIPS_HERE" = "PUT_ZIPS_HERE" /\
  normpath "./PUT_ZIPS_HERE" = "PUT_ZIPS_HERE" /\
  lineage "/Mods/CAS/Hair" = ["/Mods/CAS/Hair"; "/Mods/CAS"; "/Mods"] /\
  lineage "PUT_ZIPS_HERE/processed_archive"
  = ["PUT_ZIPS_HERE/processed_archive"; "PUT_ZIPS_HERE"].
Proof. repeat split; vm_compute; reflexivity. Qed.

(** A category that names a folder inside a folder: the folders on the way
    are made with it, and the member lies in the innermost one. *)
Example nested_category_scenario :
  let r := @process_member Fragment.lib cfg_nested "/Mods" pack1
             (mkZipInfo "a/RedHair.package" false "red" true) st_mods in
  fst r = inr tt /\
  dirs (snd r) = {[ "/Mods/CAS/Hair"; "/Mods/CAS"; "/Mods" ]} /\
  files (snd r) = <["/Mods/CAS/Hair/RedHair.package" := Raw "red"]> ∅ /\
  stdout (snd r) = [MsgExtract "RedHair.package" "CAS/Hair"].
Proof.
  cbv zeta. repeat split; vm_compute; reflexivity.
Qed.

(** A category that is an absolute path takes the place of the Mods
    folder. *)
Example absolute_category_scenario :
  let r := @process_member Fragment.lib cfg_nested "/Mods" pack1
             (mkZipInfo "b/GreenEye.package" false "green" true) st_mods in
  fst r = inr tt /\
  dirs (snd r) = {[ "/tmp/evil"; "/tmp"; "/Mods" ]} /\
  files (snd r) = <["/tmp/evil/GreenEye.package" := Raw "green"]> ∅.
Proof.
  cbv zeta. repeat split; vm_compute; reflexivity.
Qed.

(** The check of line 73 follows [str.lower]: an extension spelled with
    U+212A KELVIN SIGN for the letter k is a tracked one, and the member
    is extracted under its name as spelled. *)
Example kelvin_sign_scenario :
  let r := @process_member Fragment.lib cfg_pack "/Mods" [kelvin_member]
             kelvin_member st_mods in
  lower (filename kelvin_member) = "cloak.package" /\
  eligible kelvin_member = true /\
  fst r = inr tt /\
  files (snd r)
  = <["/Mods/_unsorted/Cloak.pac" +:+ kelvin_sign +:+ "age" := Raw "cloak"]> ∅.
Proof.
  cbv zeta. repeat split; vm_compute; reflexivity.
Qed.


(** The search of the concrete library: anywhere in the name, without
    regard to case, and with the operators of the fragment. *)
Example fragment_search_examples :
  let hit p s := option_map (fun r => Fragment.search r s) (Fragment.compile p) in
  hit "hai" "long_hair_01.package" = Some true /\
  hit "AIR" "long_hair_01.package" = Some true /\
  hit "hair" "Long_HAIR_01.package" = Some true /\
  hit "hat" "long_hair_01.package" = Some false /\
  hit "(hair|wig)s?_0" "long_hair_01.package" = Some true /\
  hit "h.*r_.1" "long_hair_01.package" = Some true /\
  hit "hair)" "long_hair_01.package" = None /\
  hit "*hair" "long_hair_01.package" = None.
Proof.
  cbv zeta. repeat split; vm_compute; reflexivity.
Qed.

(** ** Further properties of the script *)

(** *** The search through the rules, continued *)

(** X1.  When every pattern of the rule set compiles and none hits the
    file name, the search ends with the fallback folder and [found_match]
    false; with no rules at all this is the result for every name. *)
Theorem no_hit_gives_fallback (L : PyLib) (cfg : config) (base : string)
    (st : state) :
  (forall k p, (k, p) ∈ default [] (rules cfg) ->
     exists r, re_compile p = Some r /\ regex_search r base = false) ->
  classify cfg base st
  = (inr (default "_unsorted" (unsorted_folder_name cfg), false), st).
Proof.
  intros Hmiss. unfold classify.
  rewrite <- (app_nil_r (default [] (rules cfg))).
  now rewrite search_rules_skip.
Qed.

Lemma no_hit_gives_fallback_witness :
  @classify Fragment.lib cfg_pack "Shoe.package" st_mods
  = (inr ("_unsorted", false), st_mods).
Proof.
  apply (no_hit_gives_fallback Fragment.lib cfg_pack "Shoe.package" st_mods).
  intros k p Hin. cbn in Hin.
  apply elem_of_cons in Hin as [Hin | Hin];
    [| apply list_elem_of_singleton in Hin]; injection Hin as -> ->.
  - exists (default Fragment.RxEmpty (Fragment.compile "hair")).
    split; [reflexivity | vm_compute; reflexivity].
  - exists (default Fragment.RxEmpty (Fragment.compile "eye")).
    split; [reflexivity | vm_compute; reflexivity].
Defined.

(** X2.  The rules after the first hit are not consulted: once the rules
    before a rule all miss and that rule hits, the result is its category
    whatever follows it, a pattern that does not compile included. *)
Theorem rules_after_hit_are_not_consulted (L : PyLib) (cfg : config)
    (pre : list (string * string)) (k p : string) (r : regex)
    (post : list (string * string)) (base : string) (st : state) :
  default [] (rules cfg) = pre ++ (k, p) :: post ->
  (forall k' p', (k', p') ∈ pre ->
     exists r', re_compile p' = Some r' /\ regex_search r' base = false) ->
  re_compile p = Some r -> regex_search r base = true ->
  classify cfg base st = (inr (k, true), st).
Proof.
  intros Hr Hpre Hc Hs. unfold classify. rewrite Hr.
  rewrite search_rules_skip by exact Hpre.
  now apply search_rules_hit with r.
Qed.

Lemma rules_after_hit_are_not_consulted_witness :
  @re_compile Fragment.lib "(" = None /\
  @classify Fragment.lib cfg_broken "RedHair.package" st_mods
  = (inr ("hair", true), st_mods).
Proof.
  split; [reflexivity |].
  apply (rules_after_hit_are_not_consulted Fragment.lib cfg_broken
           [] "hair" "hair" (default Fragment.RxEmpty (Fragment.compile "hair"))
           [("broken", "(")] "RedHair.package" st_mods).
  - reflexivity.
  - intros k' p' Hin. now apply not_elem_of_nil in Hin.
  - reflexivity.
  - vm_compute. reflexivity.
Defined.

(** *** What is written, and where *)






(** X5.  Two eligible members with the same base name have the same
    destination, and the first one handled keeps it: once a member loop
    that starts with the first has ended without an exception, the second
    is reported as skipped and nothing is written or counted for it. *)
Theorem later_member_with_same_base_is_skipped (L : PyLib) (cfg : config)
    (mods : string) (z : list ZipInfo) (m1 : ZipInfo) (mid : list ZipInfo)
    (m2 : ZipInfo) (st st' : state) :
  eligible m1 = true -> eligible m2 = true ->
  basename (filename m2) = basename (filename m1) ->
  scan_members cfg mods z (m1 :: mid) st = (inr tt, st') ->
  exists cat found,
    classification cfg (basename (filename m1)) = inr (cat, found) /\
    process_member cfg mods z m2 st'
    = (inr tt, printed (MsgSkip cat (basename (filename m1))) st').
Proof.
  intros H1 H2 Hb Hs.
  apply scan_ok in Hs as [Hall _]. apply Forall_cons in Hall as [Hall _].
  destruct (Hall H1) as (cat & found & Hc & Hd & Hx).
  exists cat, found. split; [exact Hc |].
  rewrite (process_member_settled cfg mods z m2 st' H2).
  - unfold skip_line. now rewrite Hb, Hc.
  - exists cat, found. now rewrite Hb.
Qed.

Lemma later_member_with_same_base_is_skipped_witness :
  exists cat found,
    @classification Fragment.lib cfg_pack "Hat.package" = inr (cat, found) /\
    @process_member Fragment.lib cfg_pack "/Mods" two_hats
      (mkZipInfo "b/Hat.package" false "second" true)
      (snd (@scan_members Fragment.lib cfg_pack "/Mods" two_hats
              [mkZipInfo "a/Hat.package" false "first" true] st_mods))
    = (inr tt,
       printed (MsgSkip cat "Hat.package")
         (snd (@scan_members Fragment.lib cfg_pack "/Mods" two_hats
                 [mkZipInfo "a/Hat.package" false "first" true] st_mods))).
Proof.
  apply (later_member_with_same_base_is_skipped Fragment.lib cfg_pack "/Mods"
           two_hats (mkZipInfo "a/Hat.package" false "first" true) []
           (mkZipInfo "b/Hat.package" false "second" true) st_mods).
  - reflexivity.
  - reflexivity.
  - reflexivity.
  - vm_compute. reflexivity.
Defined.



(** The counters and the number of files, for one member. *)
Lemma outcome_counts (L : PyLib) cfg mods z fi base st r :
  member_outcome cfg mods z fi base st r ->
  count_moved st <= count_moved (snd r) /\
  count_unsorted st <= count_unsorted (snd r) /\
  count_moved (snd r) + count_unsorted (snd r) + size (files st)
  <= count_moved st + count_unsorted st + size (files (snd r)) /\
  (fst r = inr tt ->
   count_moved (snd r) + count_unsorted (snd r) + size (files st)
   = count_moved st + count_unsorted st + size (files (snd r))).
Proof.
  destruct 1 as [e|cat f|cat f Hc Hd Hx|cat f Hc Hd Hx|cat f e Hc Hd Hx
                 |cat f n data Hc Hd Hx|cat f data Hc Hd Hx];
    destruct (with_dir_counts (joinpath mods cat) st) as [Hm Hu] || idtac;
    try (apply exists_in_false in Hx as [Hx _]; rewrite with_dir_files in Hx);
    try destruct f;
    cbn [fst snd files count_moved count_unsorted counted set_counts set_files
         printed set_stdout];
    rewrite ?with_dir_files, ?Hm, ?Hu, ?(map_size_insert_None _ _ _ Hx);
    repeat split; try discriminate; lia.
Qed.

(** X7.  The counters count files: over the member loop of an archive
    neither counter decreases, together they grow by no more than the
    number of files added, and when the loop ends without an exception
    they grow by exactly that number. *)
Theorem counters_count_the_new_files (L : PyLib) (cfg : config)
    (mods : string) (z ms : list ZipInfo) (st : state) :
  count_moved st <= count_moved (snd (scan_members cfg mods z ms st)) /\
  count_unsorted st <= count_unsorted (snd (scan_members cfg mods z ms st)) /\
  count_moved (snd (scan_members cfg mods z ms st))
  + count_unsorted (snd (scan_members cfg mods z ms st)) + size (files st)
  <= count_moved st + count_unsorted st
     + size (files (snd (scan_members cfg mods z ms st))) /\
  (fst (scan_members cfg mods z ms st) = inr tt ->
   count_moved (snd (scan_members cfg mods z ms st))
   + count_unsorted (snd (scan_members cfg mods z ms st)) + size (files st)
   = count_moved st + count_unsorted st
     + size (files (snd (scan_members cfg mods z ms st)))).
Proof.
  unfold scan_members. revert st. induction ms as [|fi ms IH]; intros st.
  { cbn. repeat split; lia. }
  rewrite for_each_cons.
  assert (H1 : count_moved st <= count_moved (snd (process_member cfg mods z fi st)) /\
               count_unsorted st <= count_unsorted (snd (process_member cfg mods z fi st)) /\
               count_moved (snd (process_member cfg mods z fi st))
               + count_unsorted (snd (process_member cfg mods z fi st)) + size (files st)
               <= count_moved st + count_unsorted st
                  + size (files (snd (process_member cfg mods z fi st))) /\
               (fst (process_member cfg mods z fi st) = inr tt ->
                count_moved (snd (process_member cfg mods z fi st))
                + count_unsorted (snd (process_member cfg mods z fi st)) + size (files st)
                = count_moved st + count_unsorted st
                  + size (files (snd (process_member cfg mods z fi st))))).
  { unfold process_member. destruct (ignored fi); [cbn; repeat split; lia |].
    destruct (String.eqb _ _); [cbn; repeat split; lia |].
    eapply outcome_counts, extract_member_outcome. }
  destruct (process_member cfg mods z fi st) as [[e|[]] s]; cbn [fst snd] in H1.
  - cbn [fst snd]. destruct H1 as (? & ? & ? & _). repeat split; try lia. discriminate.
  - destruct H1 as (Ha & Hb & Hc & Hd). specialize (Hd eq_refl).
    destruct (IH s) as (Ha' & Hb' & Hc' & Hd').
    repeat split; try lia. intros Hok. specialize (Hd' Hok). lia.
Qed.

(** X8.  The destination is opened before the payload is read (lines
    106-107): a member whose payload cannot be read leaves an empty file at
    its destination and is not counted, and from then on the member is
    reported as skipped, the empty file staying as it is. *)
Theorem unreadable_member_leaves_an_empty_file (L : PyLib) (cfg : config)
    (mods : string) (z : list ZipInfo) (fi : ZipInfo) (st : state)
    (cat : string) (found : bool) (e : exn) :
  eligible fi = true ->
  classification cfg (basename (filename fi)) = inr (cat, found) ->
  mkdir_fails (joinpath mods cat) st = false ->
  exists_in (dest_of mods cat (basename (filename fi)))
            (with_dir (joinpath mods cat) st) = false ->
  faults st !! dest_of mods cat (basename (filename fi)) <> Some Denied ->
  read_result z (filename fi) = inl e ->
  exists st_f,
    process_member cfg mods z fi st = (inl e, st_f) /\
    files st_f !! dest_of mods cat (basename (filename fi)) = Some (Raw "") /\
    count_moved st_f = count_moved st /\ count_unsorted st_f = count_unsorted st /\
    forall st2, extends st_f st2 ->
      process_member cfg mods z fi st2
      = (inr tt, printed (MsgSkip cat (basename (filename fi))) st2) /\
      files st2 !! dest_of mods cat (basename (filename fi)) = Some (Raw "").
Proof.
  intros He Hc Hd Hx Hf Hr.
  rewrite (process_member_eligible _ _ _ _ _ He).
  pose proof (extract_member_outcome cfg mods z fi (basename (filename fi)) st) as Ho.
  destruct (extract_member cfg mods z fi (basename (filename fi)) st) as [r st_f].
  exists st_f. pose proof (proj1 (mkdir_fails_false _ _) Hd) as Hd0.
  inversion Ho as [e' Hc'|cat' f e' Hc' Hd'|cat' f Hc' Hd' Hx'|cat' f Hc' Hd' Hx' Hf'
                   |cat' f e' Hc' Hd' Hx' Hf' Hr'|cat' f n data' Hc' Hd' Hx' Hf' Hr'
                   |cat' f data' Hc' Hd' Hx' Hf' Hr']; subst;
    rewrite Hc in Hc'; try discriminate; injection Hc' as <- <-; try congruence.
  assert (Hfile : files (set_files
                    (<[dest_of mods cat (basename (filename fi)) := Raw ""]> (files st))
                    (printed (MsgExtract (basename (filename fi)) cat)
                       (with_dir (joinpath mods cat) st)))
                  !! dest_of mods cat (basename (filename fi)) = Some (Raw ""))
    by apply lookup_insert_eq.
  split; [congruence |]. split; [exact Hfile |].
  split; [cbn; apply with_dir_counts |]. split; [cbn; apply with_dir_counts |].
  intros st2 Hext. split.
  - rewrite (process_member_settled cfg mods z fi st2 He).
    + unfold skip_line. now rewrite Hc.
    + eapply settled_extends; [exact Hext |].
      exists cat, found. split; [exact Hc |]. split.
      * apply mkdir_makes in Hd. now rewrite normpath_joinpath in Hd.
      * unfold exists_in. rewrite Hfile. apply orb_true_iff. left.
        apply bool_decide_eq_true. eauto.
  - destruct Hext as (_ & Hsub & _). eapply lookup_weaken; eassumption.
Qed.

Lemma unreadable_member_leaves_an_empty_file_witness :
  read_result [bad_crc] (filename bad_crc) = inl BadZipFile /\
  exists st_f,
    @process_member Fragment.lib cfg_pack "/Mods" [bad_crc] bad_crc st_mods
    = (inl BadZipFile, st_f) /\
    files st_f !! "/Mods/_unsorted/Cap.package" = Some (Raw "").
Proof.
  split; [reflexivity |].
  destruct (unreadable_member_leaves_an_empty_file Fragment.lib cfg_pack "/Mods"
              [bad_crc] bad_crc st_mods "_unsorted" false BadZipFile)
    as (st_f & Hrun & Hfile & _);
    [reflexivity | vm_compute; reflexivity | vm_compute; reflexivity
    | vm_compute; reflexivity | vm_compute; discriminate | reflexivity |].
  exists st_f. split; [exact Hrun | exact Hfile].
Defined.

(** *** Archives and the run *)

(** Lines 114-118, step by step. *)
Lemma relocate_run cfg z s :
  relocate cfg z s
  = let pd := processed_dir_of cfg in
    let dst := joinpath pd (basename z) in
    let real := os_path_join dst (basename z) in
    if mkdir_exist_ok_fails pd s then (inl (OSError pd), s)
    else
      match files s !! z with
      | None => (inl (OSError z), with_leaf pd s)
      | Some c =>
          if is_directory dst (with_leaf pd s) then
            if exists_in real (with_leaf pd s) || bool_decide (is_Some (faults s !! real))
            then (inl (OSError real), with_leaf pd s)
            else (inr tt, printed (MsgFinished (basename z))
                            (set_files (<[real := c]> (delete z (files s)))
                               (with_leaf pd s)))
          else if bool_decide (is_Some (faults s !! dst))
               then (inl (OSError dst), with_leaf pd s)
               else (inr tt, printed (MsgFinished (basename z))
                               (set_files (<[dst := c]> (delete z (files s)))
                                  (with_leaf pd s)))
      end.
Proof.
  cbv zeta. unfold relocate. unfold bind at 1. rewrite mkdir_exist_ok_run.
  destruct (mkdir_exist_ok_fails (processed_dir_of cfg) s); [reflexivity |].
  unfold bind at 1, move, bind at 1, get_state.
  destruct (with_leaf_spec (processed_dir_of cfg) s) as (-> & -> & _).
  destruct (files s !! z) as [c|]; [| reflexivity].
  destruct (is_directory _ _).
  - destruct (_ || _); reflexivity.
  - destruct (bool_decide _); reflexivity.
Qed.

(** What the relocation keeps, whether it goes through or not. *)
Lemma relocate_keeps cfg z s :
  count_moved (snd (relocate cfg z s)) = count_moved s /\
  count_unsorted (snd (relocate cfg z s)) = count_unsorted s /\
  dirs s ⊆ dirs (snd (relocate cfg z s)) /\
  (forall p c, files s !! p = Some c -> p <> z ->
     p <> joinpath (processed_dir_of cfg) (basename z) ->
     files (snd (relocate cfg z s)) !! p = Some c) /\
  (forall e, fst (relocate cfg z s) = inl e ->
     (exists q, e = OSError q) /\ files (snd (relocate cfg z s)) = files s).
Proof.
  rewrite relocate_run. cbv zeta.
  destruct (with_leaf_spec (processed_dir_of cfg) s) as (Hf & _ & _ & Hm & Hu & Hd & _).
  assert (Hfail : forall q s',
            files s' = files s -> count_moved s' = count_moved s ->
            count_unsorted s' = count_unsorted s -> dirs s ⊆ dirs s' ->
            count_moved (snd (@inl exn unit (OSError q), s')) = count_moved s /\
            count_unsorted (snd (@inl exn unit (OSError q), s')) = count_unsorted s /\
            dirs s ⊆ dirs (snd (@inl exn unit (OSError q), s')) /\
            (forall p c, files s !! p = Some c -> p <> z ->
               p <> joinpath (processed_dir_of cfg) (basename z) ->
               files (snd (@inl exn unit (OSError q), s')) !! p = Some c) /\
            (forall e, fst (@inl exn unit (OSError q), s') = inl e ->
               (exists q', e = OSError q') /\
               files (snd (@inl exn unit (OSError q), s')) = files s)).
  { intros q s' H1 H2 H3 H4. cbn [fst snd]. split_and!; auto.
    - intros p c Hp _ _. now rewrite H1.
    - intros e [= <-]. eauto. }
  destruct (mkdir_exist_ok_fails (processed_dir_of cfg) s); [now apply Hfail |].
  destruct (files s !! z) as [c0|] eqn:Hz; [| now apply Hfail].
  destruct (is_directory _ _).
  - destruct (exists_in _ _ || _) eqn:Hx; [now apply Hfail |].
    cbn [fst snd files count_moved count_unsorted dirs printed set_files set_stdout].
    split_and!; auto; [| discriminate].
    intros p c Hp Hpz _. apply orb_false_iff in Hx as [Hx _].
    apply exists_in_false in Hx as [Hx _]. rewrite Hf in Hx.
    rewrite lookup_insert_ne by congruence.
    now rewrite lookup_delete_ne by congruence.
  - destruct (bool_decide (is_Some _)); [now apply Hfail |].
    cbn [fst snd files count_moved count_unsorted dirs printed set_files set_stdout].
    split_and!; auto; [| discriminate].
    intros p c Hp Hpz Hpd. rewrite lookup_insert_ne by congruence.
    now rewrite lookup_delete_ne by congruence.
Qed.

Lemma scan_ignored (L : PyLib) cfg mods z ms st :
  Forall (fun fi => ignored fi = true) ms ->
  scan_members cfg mods z ms st = (inr tt, st).
Proof.
  unfold scan_members. induction 1 as [|fi ms Hi _ IH]; [reflexivity |].
  now rewrite for_each_cons, process_member_ignored.
Qed.

(** X9.  When the relocation of an archive fails after its members were
    handled, the error is reported as unexpected for that archive, the
    archive stays where it was, the files extracted from it and the
    counters stay as the member loop left them, and the loop over the
    archives goes on. *)
Theorem failed_relocation_leaves_the_archive (L : PyLib) (cfg : config)
    (mods z : string) (ms : list ZipInfo) (st st_s : state) (e : exn) :
  files st !! z = Some (ZipArchive ms) ->
  scan_members cfg mods ms ms (printed (MsgProcessing (basename z)) st)
  = (inr tt, st_s) ->
  fst (relocate cfg z st_s) = inl e ->
  process_archive cfg mods z st
  = (inr tt, printed (MsgUnexpected (basename z) e) (snd (relocate cfg z st_s))) /\
  files (snd (process_archive cfg mods z st)) = files st_s /\
  files (snd (process_archive cfg mods z st)) !! z = Some (ZipArchive ms) /\
  count_moved (snd (process_archive cfg mods z st)) = count_moved st_s /\
  count_unsorted (snd (process_archive cfg mods z st)) = count_unsorted st_s.
Proof.
  intros Hz Hs He.
  destruct (relocate_keeps cfg z st_s) as (Hm & Hu & _ & _ & Herr).
  destruct (Herr e He) as [[q ->] Hf].
  assert (Hrun : process_archive cfg mods z st
                 = (inr tt, printed (MsgUnexpected (basename z) (OSError q))
                              (snd (relocate cfg z st_s)))).
  { rewrite process_archive_run, Hz. cbn zeta. rewrite Hs.
    destruct (relocate cfg z st_s) as [[e'|[]] s']; cbn [fst snd] in *;
      [| discriminate].
    injection He as ->. reflexivity. }
  rewrite Hrun. cbn [snd files count_moved count_unsorted printed set_stdout].
  repeat split; try assumption.
  rewrite Hf.
  pose proof (scan_extends cfg mods ms ms (printed (MsgProcessing (basename z)) st)) as Hext.
  rewrite Hs in Hext. destruct Hext as (_ & Hsub & _).
  eapply lookup_weaken; [| exact Hsub]. exact Hz.
Qed.

Lemma failed_relocation_leaves_the_archive_witness :
  fst (relocate cfg_pack "PUT_ZIPS_HERE/pack1.zip"
         (snd (@scan_members Fragment.lib cfg_pack "/Mods" pack1 pack1
                 (printed (MsgProcessing "pack1.zip") st_blocked))))
  = inl (OSError "PUT_ZIPS_HERE/processed_archive") /\
  files (snd (@process_archive Fragment.lib cfg_pack "/Mods"
                "PUT_ZIPS_HERE/pack1.zip" st_blocked))
    !! "PUT_ZIPS_HERE/pack1.zip" = Some (ZipArchive pack1) /\
  count_moved (snd (@process_archive Fragment.lib cfg_pack "/Mods"
                      "PUT_ZIPS_HERE/pack1.zip" st_blocked)) = 2.
Proof.
  split; [vm_compute; reflexivity |].
  destruct (failed_relocation_leaves_the_archive Fragment.lib cfg_pack "/Mods"
              "PUT_ZIPS_HERE/pack1.zip" pack1 st_blocked
              (snd (@scan_members Fragment.lib cfg_pack "/Mods" pack1 pack1
                      (printed (MsgProcessing "pack1.zip") st_blocked)))
              (OSError "PUT_ZIPS_HERE/processed_archive"))
    as (_ & _ & Hz & Hm & _);
    [reflexivity | vm_compute; reflexivity | vm_compute; reflexivity |].
  split; [exact Hz |]. rewrite Hm. vm_compute. reflexivity.
Defined.

(** X10.  An archive without a tracked member, the empty archive
    included, goes straight to its relocation: nothing is classified,
    extracted or counted, whatever the rules are. *)
Theorem archive_without_tracked_members (L : PyLib) (cfg : config)
    (mods z : string) (ms : list ZipInfo) (st : state) :
  files st !! z = Some (ZipArchive ms) ->
  Forall (fun fi => ignored fi = true) ms ->
  process_archive cfg mods z st
  = try_except (relocate cfg z) (on_error z)
      (printed (MsgProcessing (basename z)) st).
Proof.
  intros Hz Hall. rewrite process_archive_run, Hz. cbn zeta.
  rewrite scan_ignored by exact Hall. unfold try_except.
  destruct (relocate cfg z _) as [[e|[]] s']; reflexivity.
Qed.

Lemma archive_without_tracked_members_witness :
  @process_archive Fragment.lib cfg_broken "/Mods" "PUT_ZIPS_HERE/docs.zip" st_docs
  = (inr tt,
     printed (MsgFinished "docs.zip")
       (set_files (<["PUT_ZIPS_HERE/processed_archive/docs.zip" :=
                       ZipArchive [mkZipInfo "notes.txt" false "n" true;
                                   mkZipInfo "folder/" true "" true]]> ∅)
          (set_dirs {[ "PUT_ZIPS_HERE/processed_archive"; "PUT_ZIPS_HERE"; "/Mods" ]}
             (printed (MsgProcessing "docs.zip") st_docs)))).
Proof.
  rewrite (archive_without_tracked_members Fragment.lib cfg_broken "/Mods"
             "PUT_ZIPS_HERE/docs.zip"
             [mkZipInfo "notes.txt" false "n" true; mkZipInfo "folder/" true "" true]
             st_docs).
  - vm_compute. reflexivity.
  - reflexivity.
  - repeat constructor.
Defined.

(** Handling one archive keeps every other file and every directory. *)
Lemma process_archive_keeps (L : PyLib) cfg mods z st :
  dirs st ⊆ dirs (snd (process_archive cfg mods z st)) /\
  forall p c, files st !! p = Some c -> p <> z ->
    p <> joinpath (processed_dir_of cfg) (basename z) ->
    files (snd (process_archive cfg mods z st)) !! p = Some c.
Proof.
  rewrite process_archive_run. cbn zeta.
  destruct (files st !! z) as [[b|ms]|] eqn:Hz; try (split; [reflexivity | auto]).
  pose proof (scan_extends cfg mods ms ms (printed (MsgProcessing (basename z)) st)) as Hext.
  destruct (scan_members cfg mods ms ms _) as [[e|[]] s] eqn:Hs; cbn [snd] in Hext;
    destruct Hext as (Hd & Hf & _); cbn [dirs files printed set_stdout] in Hd, Hf.
  - rewrite on_error_run by (now apply scan_raised in Hs). cbn [snd].
    split; [exact Hd |]. intros p c Hp _ _. eapply lookup_weaken; eassumption.
  - destruct (relocate_keeps cfg z s) as (_ & _ & Hd' & Hk & Herr).
    assert (Hp' : forall p c, files st !! p = Some c -> files s !! p = Some c)
      by (intros p c Hp; eapply lookup_weaken; eassumption).
    destruct (relocate cfg z s) as [[e|[]] s'] eqn:Hrel; cbn [fst snd] in *.
    + destruct (Herr e eq_refl) as [[q ->] _]. cbn [on_error is_Exception print modify snd].
      split; [now transitivity (dirs s) |]. intros p c Hp Hz' Hd''. apply Hk; auto.
    + split; [now transitivity (dirs s) |]. intros p c Hp Hz' Hd''. apply Hk; auto.
Qed.

Lemma for_each_archive_returns (L : PyLib) cfg mods zs st :
  fst (for_each zs (process_archive cfg mods) st) = inr tt.
Proof.
  revert st. induction zs as [|z zs IH]; intros st; [reflexivity |].
  rewrite for_each_cons.
  pose proof (process_archive_returns cfg mods z st) as Hr.
  destruct (process_archive cfg mods z st) as [[e|[]] s]; [discriminate | apply IH].
Qed.

Lemma for_each_archive_keeps (L : PyLib) cfg mods zs st :
  dirs st ⊆ dirs (snd (for_each zs (process_archive cfg mods) st)) /\
  forall p c, files st !! p = Some c ->
    (forall z, z ∈ zs ->
       p <> z /\ p <> joinpath (processed_dir_of cfg) (basename z)) ->
    files (snd (for_each zs (process_archive cfg mods) st)) !! p = Some c.
Proof.
  revert st. induction zs as [|z zs IH]; intros st; [split; [reflexivity | auto] |].
  rewrite for_each_cons.
  destruct (process_archive_keeps L cfg mods z st) as [Hd Hk].
  destruct (process_archive cfg mods z st) as [[e|[]] s]; cbn [snd] in Hd, Hk.
  - split; [exact Hd |]. intros p c Hp Hz.
    destruct (Hz z) as [H1 H2]; [apply list_elem_of_here |]. now apply Hk.
  - destruct (IH s) as [Hd' Hk']. split; [now transitivity (dirs s) |].
    intros p c Hp Hz. apply Hk'.
    + destruct (Hz z) as [H1 H2]; [apply list_elem_of_here |]. now apply Hk.
    + intros z' Hin. apply Hz. now apply list_elem_of_further.
Qed.

(** Lines 43-128, step by step. *)
Lemma process_zips_run (L : PyLib) (cfg : config) mods zip_files st :
  process_zips cfg mods zip_files st
  = if exists_in (source_of cfg) st then
      match zip_files with
      | [] => (inr tt, printed (MsgNoZips (source_of cfg)) st)
      | _ =>
          match for_each zip_files (process_archive cfg mods)
                  (set_counts 0 0 (printed (MsgFound (length zip_files)) st)) with
          | (inl e, s) => (inl e, s)
          | (inr _, s) =>
              (inr tt,
               printed MsgRule
                 (printed (MsgDone (count_moved s) (count_unsorted s)
                             (default "_unsorted" (unsorted_folder_name cfg)))
                    (printed MsgRule s)))
          end
      end
    else if mkdir_fails (source_of cfg) st
         then (fst (mkdir (source_of cfg) st), with_dir (source_of cfg) st)
         else (inl SystemExit,
               printed MsgPutZips
                 (printed (MsgCreatedSource (source_of cfg))
                    (with_dir (source_of cfg) st))).
Proof.
  unfold process_zips. unfold bind at 1, the_object, ret at 1.
  unfold bind at 1, path_exists, bind at 1, get_state, ret.
  destruct (exists_in (source_of cfg) st); cbn [negb].
  - destruct zip_files as [|z zs]; [reflexivity |].
    unfold bind at 1, print at 1, modify at 1.
    unfold bind at 1, modify at 1. unfold bind at 1.
    destruct (for_each (z :: zs) (process_archive cfg mods) _) as [[e|[]] s];
      reflexivity.
  - unfold bind at 1. rewrite mkdir_run. unfold mkdir_fails.
    destruct (fst (mkdir (source_of cfg) st)) as [e|[]]; reflexivity.
Qed.

(** X11.  A run never changes or removes a file that was there before it,
    except the archives it is given and what stands at their places in the
    folder of processed archives; and it never removes a directory. *)
Theorem run_keeps_existing_files (L : PyLib) (cfg : config) (mods : string)
    (zip_files : list string) (st : state) (p : string) (c : content) :
  files st !! p = Some c ->
  (forall z, z ∈ zip_files ->
     p <> z /\ p <> joinpath (processed_dir_of cfg) (basename z)) ->
  files (snd (process_zips cfg mods zip_files st)) !! p = Some c /\
  dirs st ⊆ dirs (snd (process_zips cfg mods zip_files st)).
Proof.
  intros Hp Hz. rewrite process_zips_run.
  destruct (exists_in (source_of cfg) st).
  - destruct zip_files as [|z zs]; [split; [exact Hp | reflexivity] |].
    set (s0 := set_counts 0 0 (printed (MsgFound (length (z :: zs))) st)).
    destruct (for_each_archive_keeps L cfg mods (z :: zs) s0) as [Hd Hk].
    destruct (for_each (z :: zs) (process_archive cfg mods) s0) as [[e|[]] s];
      cbn [snd] in Hd, Hk; (split; [now apply Hk | exact Hd]).
  - destruct (mkdir_fails (source_of cfg) st); cbn; rewrite with_dir_files;
      (split; [exact Hp | apply with_dir_sub]).
Qed.

Lemma run_keeps_existing_files_witness :
  files st_kept !! "/Mods/hair/RedHair.package" = Some (Raw "mine") /\
  files (snd (@process_zips Fragment.lib cfg_pack "/Mods"
                ["PUT_ZIPS_HERE/pack1.zip"] st_kept))
    !! "/Mods/hair/RedHair.package" = Some (Raw "mine").
Proof.
  split; [reflexivity |].
  apply (run_keeps_existing_files Fragment.lib cfg_pack "/Mods"
           ["PUT_ZIPS_HERE/pack1.zip"] st_kept "/Mods/hair/RedHair.package"
           (Raw "mine")).
  - reflexivity.
  - intros z Hz. apply list_elem_of_singleton in Hz as ->.
    split; vm_compute; discriminate.
Defined.

(** X12.  With the source folder in place and at least one archive to
    process, the run always ends normally on its summary: no error of an
    archive stops it, and the last three lines printed are the rule, the
    line with the two counters as they stand at the end, and the rule. *)
Theorem run_reaches_its_summary (L : PyLib) (cfg : config) (mods : string)
    (zip_files : list string) (st : state) :
  exists_in (source_of cfg) st = true -> zip_files <> [] ->
  exists s,
    for_each zip_files (process_archive cfg mods)
      (set_counts 0 0 (printed (MsgFound (length zip_files)) st)) = (inr tt, s) /\
    process_zips cfg mods zip_files st
    = (inr tt,
       printed MsgRule
         (printed (MsgDone (count_moved s) (count_unsorted s)
                     (default "_unsorted" (unsorted_folder_name cfg)))
            (printed MsgRule s))).
Proof.
  intros Hx Hne. rewrite process_zips_run, Hx.
  destruct zip_files as [|z zs]; [contradiction |].
  set (s0 := set_counts 0 0 (printed (MsgFound (length (z :: zs))) st)).
  pose proof (for_each_archive_returns L cfg mods (z :: zs) s0) as Hr.
  destruct (for_each (z :: zs) (process_archive cfg mods) s0) as [[e|[]] s];
    [discriminate |].
  exists s. split; reflexivity.
Qed.

Lemma run_reaches_its_summary_witness :
  exists s,
    @process_zips Fragment.lib cfg_pack "/Mods"
      ["PUT_ZIPS_HERE/bad.zip"; "PUT_ZIPS_HERE/pack1.zip"] st_damaged
    = (inr tt,
       printed MsgRule
         (printed (MsgDone (count_moved s) (count_unsorted s) "_unsorted")
            (printed MsgRule s))).
Proof.
  destruct (run_reaches_its_summary Fragment.lib cfg_pack "/Mods"
              ["PUT_ZIPS_HERE/bad.zip"; "PUT_ZIPS_HERE/pack1.zip"] st_damaged)
    as (s & _ & Hrun); [reflexivity | discriminate |].
  exists s. exact Hrun.
Defined.

(** X13.  With nothing to process the run opens no archive.  Without the
    source folder it makes the folder, with the ancestors it lacks, prints
    its two lines and exits, whatever archives it was given; where the
    parent of the folder is in place, as the current folder is for the
    default PUT_ZIPS_HERE, the folder is the one directory made.  With the
    folder but no archive in it, the run prints one line and returns, with
    no summary and the file system and the counters as they were. *)
Theorem nothing_to_process (L : PyLib) (cfg : config) (mods : string)
    (zip_files : list string) (st : state) :
  (exists_in (source_of cfg) st = false ->
   mkdir_fails (source_of cfg) st = false ->
   process_zips cfg mods zip_files st
   = (inl SystemExit,
      printed MsgPutZips
        (printed (MsgCreatedSource (source_of cfg))
           (with_dir (source_of cfg) st))) /\
   is_directory (source_of cfg) (with_dir (source_of cfg) st) = true /\
   files (with_dir (source_of cfg) st) = files st /\
   forall q, q ∈ dirs (with_dir (source_of cfg) st) ->
             q ∈ dirs st \/ q ∈ lineage (source_of cfg)) /\
  (exists_in (source_of cfg) st = false ->
   faults st !! source_of cfg = None ->
   match lineage (source_of cfg) with
   | _ :: parent :: _ => parent ∈ dirs st
   | _ => True
   end ->
   process_zips cfg mods zip_files st
   = (inl SystemExit,
      printed MsgPutZips
        (printed (MsgCreatedSource (source_of cfg))
           (set_dirs ({[source_of cfg]} ∪ dirs st) st)))) /\
  (exists_in (source_of cfg) st = true ->
   process_zips cfg mods [] st = (inr tt, printed (MsgNoZips (source_of cfg)) st)).
Proof.
  split_and!; intros Hx; rewrite process_zips_run, Hx; [| | reflexivity].
  - intros Hf. rewrite Hf. split_and!.
    + reflexivity.
    + apply mkdir_makes in Hf. unfold source_of in *. now rewrite normpath_idem in Hf.
    + apply with_dir_files.
    + intros q. apply with_dir_new.
  - intros Hf Hp. apply exists_in_false in Hx as (Hfile & Hdir & Ha).
    unfold mkdir_fails, with_dir.
    rewrite (mkdir_leaf (source_of cfg) st); try assumption; [reflexivity |].
    apply normpath_idem.
Qed.

Lemma nothing_to_process_witness :
  @process_zips Fragment.lib cfg_pack "/Mods" ["PUT_ZIPS_HERE/pack1.zip"] st_mods
  = (inl SystemExit,
     printed MsgPutZips
       (printed (MsgCreatedSource "PUT_ZIPS_HERE")
          (set_dirs ({["PUT_ZIPS_HERE"]} ∪ dirs st_mods) st_mods))) /\
  @process_zips Fragment.lib cfg_pack "/Mods" [] st_pack
  = (inr tt, printed (MsgNoZips "PUT_ZIPS_HERE") st_pack).
Proof.
  destruct (nothing_to_process Fragment.lib cfg_pack "/Mods"
              ["PUT_ZIPS_HERE/pack1.zip"] st_mods) as (_ & H1 & _).
  destruct (nothing_to_process Fragment.lib cfg_pack "/Mods" [] st_pack) as (_ & _ & H2).
  split; [apply H1; [reflexivity | reflexivity | exact I] | apply H2; reflexivity].
Defined.

(** *** Start-up *)

(** X14.  Loading the configuration changes no file, no directory and no
    counter.  It prints a line in two cases only, and then raises
    [SystemExit]: config.json does not exist, or [json.load] raises
    [JSONDecodeError].  Any other exception of [json.load], such as the
    [UnicodeDecodeError] of bytes that are not text, leaves [load_config]
    uncaught with nothing printed; and what [load_config] returns is what
    [json.load] returned, whether an object or not. *)
Theorem load_config_reads_only (L : PyLib) (st : state) :
  files (snd (load_config st)) = files st /\
  dirs (snd (load_config st)) = dirs st /\
  count_moved (snd (load_config st)) = count_moved st /\
  count_unsorted (snd (load_config st)) = count_unsorted st /\
  (snd (load_config st) = st \/
   fst (load_config st) = inl SystemExit /\
   (snd (load_config st) = printed MsgConfigMissing st /\
    exists_in CONFIG_FILE st = false \/
    snd (load_config st) = printed MsgConfigInvalid st /\
    exists c, files st !! CONFIG_FILE = Some c /\
              json_load c st = (inl JSONDecodeError, st))) /\
  (forall doc, fst (load_config st) = inr doc ->
     exists c, files st !! CONFIG_FILE = Some c /\ json_load c st = (inr doc, st)) /\
  (forall c e, files st !! CONFIG_FILE = Some c ->
     json_load c st = (inl e, st) -> e <> JSONDecodeError ->
     load_config st = (inl e, st)).
Proof.
  rewrite load_config_cases.
  destruct (files st !! CONFIG_FILE) as [c|] eqn:Hf.
  - pose proof (json_load_pure c st) as Hp.
    destruct (fst (json_load c st)) as [e|doc] eqn:Hr.
    + assert (Hlast : forall c' e', Some c = Some c' ->
                json_load c' st = (inl e', st) -> e' = e).
      { intros c' e' [= <-] He'. rewrite Hp in He'. now injection He'. }
      destruct e;
        cbn [fst snd files dirs count_moved count_unsorted printed set_stdout];
        split_and!; try reflexivity; auto; try discriminate;
        try (intros c' e' Hc He' Hne'; rewrite (Hlast c' e' Hc He') in *; congruence).
      right. split; [reflexivity |]. right. split; [reflexivity |]. eauto.
    + cbn [fst snd]. split_and!; try reflexivity; auto.
      * intros doc' [= <-]. eauto.
      * intros c' e' [= <-] He'. rewrite Hp in He'. discriminate.
  - destruct (is_directory CONFIG_FILE st) eqn:Hd;
      cbn [fst snd files dirs count_moved count_unsorted printed set_stdout];
      split_and!; try reflexivity; auto; try discriminate.
    right. split; [reflexivity |]. left. split; [reflexivity |].
    unfold exists_in. rewrite Hf, Hd.
    now rewrite bool_decide_false by (intros [? ?]; discriminate).
Qed.

(** X15.  The Mods folder that is returned exists, and finding it changes
    nothing.  It is the override of the configuration, as pathlib writes
    it, when that is a non-empty string; an absent override and the empty
    string both give the folder Documents/Electronic Arts/The Sims 4/Mods
    under the home folder. *)
Theorem resolved_mods_folder_exists (home : string) (cfg : config)
    (st st' : state) (p : string) :
  get_sims_mods_path home cfg st = (inr p, st') ->
  st' = st /\ exists_in p st = true /\
  match sims_mods_path_override cfg with
  | Some (String c o) => p = normpath (String c o)
  | _ => p = joinpath (joinpath (joinpath (joinpath home "Documents")
                "Electronic Arts") "The Sims 4") "Mods"
  end.
Proof.
  rewrite get_sims_mods_path_run. cbv zeta.
  destruct (exists_in _ st) eqn:Hx; [| discriminate].
  intros [= <- <-]. split; [reflexivity |]. split; [exact Hx |].
  now destruct (sims_mods_path_override cfg) as [[|c o]|].
Qed.

Lemma resolved_mods_folder_exists_witness :
  get_sims_mods_path "/home/u" (mkConfig (Some "") None None None) st_broken
  = (inr sims_mods, st_broken) /\
  exists_in sims_mods st_broken = true.
Proof.
  split; [vm_compute; reflexivity |].
  apply (resolved_mods_folder_exists "/home/u" (mkConfig (Some "") None None None)
           st_broken st_broken sims_mods).
  vm_compute. reflexivity.
Defined.

(** X16.  The script touches the file system only through [process_zips]:
    if a run of the whole script changed a file or a directory, then
    config.json decoded to a configuration, the Mods folder was found, and
    the run is [process_zips] with that configuration and that folder,
    started after the two opening lines.  A missing or malformed
    config.json, one whose document is not an object, or a missing Mods
    folder, ends the run with everything in place. *)
Theorem script_acts_only_with_config_and_folder (L : PyLib) (home : string)
    (zip_files : list string) (st : state) :
  files (snd (main home zip_files st)) <> files st \/
  dirs (snd (main home zip_files st)) <> dirs st ->
  exists text cfg p,
    files st !! CONFIG_FILE = Some (Raw text) /\
    json_loads text = Some cfg /\
    get_sims_mods_path home cfg st = (inr p, st) /\
    exists_in p st = true /\
    main home zip_files st
    = process_zips cfg p zip_files (printed (MsgTarget p) (printed MsgStarting st)).
Proof.
  rewrite main_run, load_config_run. cbn [files dirs printed set_stdout].
  destruct (files st !! CONFIG_FILE) as [[text|ms]|] eqn:Hf.
  - destruct (json_loads text) as [cfg|] eqn:Hj.
    + rewrite !get_sims_mods_path_run. cbv zeta.
      set (p := if negb (String.eqb (default "" (sims_mods_path_override cfg)) "")
                then normpath (default "" (sims_mods_path_override cfg))
                else joinpath (joinpath (joinpath (joinpath home "Documents")
                       "Electronic Arts") "The Sims 4") "Mods").
      assert (Hx0 : exists_in p (printed MsgStarting st) = exists_in p st)
        by reflexivity.
      rewrite Hx0. clear Hx0.
      destruct (exists_in p st) eqn:Hx.
      * intros _. exists text, cfg, p. split_and!; auto.
        rewrite get_sims_mods_path_run. cbv zeta. fold p. now rewrite Hx.
      * cbn. intros [Hne | Hne]; now destruct Hne.
    + destruct (json_fails text) as [[]|]; cbn; intros [Hne | Hne]; now destruct Hne.
  - destruct (json_of_archive ms); cbn; intros [Hne | Hne]; now destruct Hne.
  - destruct (is_directory _ _); cbn; intros [Hne | Hne]; now destruct Hne.
Qed.

Lemma script_acts_only_with_config_and_folder_witness :
  exists text cfg p,
    files st_broken !! CONFIG_FILE = Some (Raw text) /\
    @json_loads Fragment.lib text = Some cfg /\
    @main Fragment.lib "/home/u" ["PUT_ZIPS_HERE/pack.zip"] st_broken
    = @process_zips Fragment.lib cfg p ["PUT_ZIPS_HERE/pack.zip"]
        (printed (MsgTarget p) (printed MsgStarting st_broken)).
Proof.
  destruct (script_acts_only_with_config_and_folder Fragment.lib "/home/u"
              ["PUT_ZIPS_HERE/pack.zip"] st_broken)
    as (text & cfg & p & Hf & Hj & _ & _ & Hrun).
  - left. intros E.
    apply (f_equal (fun m => m !! joinpath (joinpath sims_mods "hair") "RedHair.package")) in E.
    vm_compute in E. discriminate.
  - exists text, cfg, p. auto.
Defined.

(** X17.  When the relocation of an archive goes through, the folder of
    processed archives exists, the content of the archive is found under
    the archive's own file name in that folder (or inside a directory of
    that name there), nothing is left at the source path, and the line
    that reports it is the last one printed. *)
Theorem relocated_archive_is_in_processed_folder (cfg : config) (z : string)
    (s s' : state) :
  relocate cfg z s = (inr tt, s') ->
  exists c dst,
    files s !! z = Some c /\
    files s' = <[dst := c]> (delete z (files s)) /\
    (dst = joinpath (processed_dir_of cfg) (basename z) \/
     dst = os_path_join (joinpath (processed_dir_of cfg) (basename z)) (basename z) /\
     joinpath (processed_dir_of cfg) (basename z) ∈ dirs s') /\
    (dst <> z -> files s' !! z = None) /\
    processed_dir_of cfg ∈ dirs s' /\
    stdout s' = stdout s ++ [MsgFinished (basename z)].
Proof.
  rewrite relocate_run. cbv zeta.
  destruct (with_leaf_spec (processed_dir_of cfg) s) as (_ & _ & Ho & _ & _ & _ & Hpd).
  assert (Hna : is_anchor (processed_dir_of cfg) = false)
    by now apply is_anchor_joinpath_name.
  destruct (mkdir_exist_ok_fails (processed_dir_of cfg) s); [discriminate |].
  specialize (Hpd eq_refl). unfold is_directory in Hpd.
  rewrite Hna, orb_false_r in Hpd. apply bool_decide_eq_true in Hpd.
  destruct (files s !! z) as [c|] eqn:Hz; [| discriminate].
  destruct (is_directory _ _) eqn:Hdir.
  - destruct (_ || _); [discriminate |]. intros [= <-].
    exists c, (os_path_join (joinpath (processed_dir_of cfg) (basename z)) (basename z)).
    cbn [files stdout dirs printed set_files set_stdout]. rewrite Ho. split_and!; auto.
    + right. split; [reflexivity |]. unfold is_directory in Hdir.
      rewrite (is_anchor_joinpath _ _ Hna (path_root_nosep _ (has_sep_basename z))),
        orb_false_r in Hdir.
      now apply bool_decide_eq_true in Hdir.
    + intros Hne. rewrite lookup_insert_ne by exact Hne. apply lookup_delete_eq.
  - destruct (bool_decide (is_Some _)); [discriminate |]. intros [= <-].
    exists c, (joinpath (processed_dir_of cfg) (basename z)).
    cbn [files stdout dirs printed set_files set_stdout]. rewrite Ho. split_and!; auto.
    intros Hne. rewrite lookup_insert_ne by exact Hne. apply lookup_delete_eq.
Qed.

Lemma relocated_archive_is_in_processed_folder_witness :
  exists s',
    relocate cfg_pack "PUT_ZIPS_HERE/pack1.zip" st_pack = (inr tt, s') /\
    files s' !! "PUT_ZIPS_HERE/processed_archive/pack1.zip" = Some (ZipArchive pack1) /\
    files s' !! "PUT_ZIPS_HERE/pack1.zip" = None.
Proof.
  exists (snd (relocate cfg_pack "PUT_ZIPS_HERE/pack1.zip" st_pack)).
  destruct (relocated_archive_is_in_processed_folder cfg_pack
              "PUT_ZIPS_HERE/pack1.zip" st_pack
              (snd (relocate cfg_pack "PUT_ZIPS_HERE/pack1.zip" st_pack)))
    as (c & dst & _ & _ & _ & _ & _ & _); [vm_compute; reflexivity |].
  split_and!; vm_compute; reflexivity.
Defined.


Lemma counters_count_the_new_files_witness :
  count_moved (snd (@scan_members Fragment.lib cfg_pack "/Mods" pack1 pack1 st_mods))
  + count_unsorted (snd (@scan_members Fragment.lib cfg_pack "/Mods" pack1 pack1 st_mods))
  + size (files st_mods)
  = count_moved st_mods + count_unsorted st_mods
    + size (files (snd (@scan_members Fragment.lib cfg_pack "/Mods" pack1 pack1 st_mods))).
Proof.
  apply (proj2 (proj2 (proj2
           (counters_count_the_new_files Fragment.lib cfg_pack "/Mods"
              pack1 pack1 st_mods)))).
  vm_compute. reflexivity.
Defined.
